(** * TalentScout hiring assistant: a shallow embedding and its properties

    The development follows the Python sources file by file:
    [config.py], [utils.py], [llm_client.py], [conversation_handler.py]
    and the chat loop of [app.py].

    Text is modelled by [string]: a character is a code point below 256,
    and on that range [isspace], [lower] and the character classes below
    are the ones of CPython's [str] and [re].  What Python leaves to its
    runtime or to the network (the iteration order of a [set], [float],
    the remote completion endpoint) is gathered in the class [Runtime]. *)

From Stdlib Require Import String Ascii List Bool Arith NArith ZArith Lia Permutation.
From Stdlib Require Import DecimalString.
Import ListNotations.
Open Scope string_scope.

(* ================================================================== *)
(** ** Python string primitives *)
(* ================================================================== *)

Module PyStr.

Definition code (c : ascii) : N := N_of_ascii c.

Definition in_range (lo hi : N) (c : ascii) : bool :=
  (lo <=? code c)%N && (code c <=? hi)%N.

(** [str.isspace] on code points below 256: TAB..CR, FS..US, SPACE,
    NEL (0x85) and NBSP (0xA0).  It is also the class [\s] of [re]. *)
Definition isspace (c : ascii) : bool :=
  in_range 9 13 c || in_range 28 32 c || (code c =? 133)%N || (code c =? 160)%N.

Definition is_upper_ascii (c : ascii) : bool := in_range 65 90 c.
Definition is_lower_ascii (c : ascii) : bool := in_range 97 122 c.
Definition is_letter (c : ascii) : bool := is_upper_ascii c || is_lower_ascii c.
Definition is_digit (c : ascii) : bool := in_range 48 57 c.

Definition shift_up (c : ascii) : ascii := ascii_of_N (code c + 32).
Definition shift_down (c : ascii) : ascii := ascii_of_N (code c - 32).

(** [str.lower] on one code point below 256: A-Z and the Latin-1 capitals
    (0xC0-0xDE apart from the multiplication sign 0xD7) move up by 32. *)
Definition lower_char (c : ascii) : ascii :=
  if is_upper_ascii c || in_range 192 214 c || in_range 216 222 c
  then shift_up c else c.

(** [str.upper] and [str.title] are only applied by the program to its own
    ASCII vocabulary; on ASCII they move a-z down by 32. *)
Definition upper_char (c : ascii) : ascii :=
  if is_lower_ascii c then shift_down c else c.

Fixpoint map (f : ascii -> ascii) (s : string) : string :=
  match s with
  | EmptyString => EmptyString
  | String c t => String (f c) (map f t)
  end.

Definition lower : string -> string := map lower_char.
Definition upper : string -> string := map upper_char.

(** [str.title]: a cased character is upper-cased when the character
    before it is not cased, and lower-cased otherwise. *)
Fixpoint title_from (previous_is_cased : bool) (s : string) : string :=
  match s with
  | EmptyString => EmptyString
  | String c t =>
      String (if previous_is_cased then lower_char c else upper_char c)
             (title_from (is_letter c) t)
  end.

Definition title : string -> string := title_from false.

Fixpoint forallb (p : ascii -> bool) (s : string) : bool :=
  match s with
  | EmptyString => true
  | String c t => p c && forallb p t
  end.

Fixpoint existsb (p : ascii -> bool) (s : string) : bool :=
  match s with
  | EmptyString => false
  | String c t => p c || existsb p t
  end.

Fixpoint filter (p : ascii -> bool) (s : string) : string :=
  match s with
  | EmptyString => EmptyString
  | String c t => if p c then String c (filter p t) else filter p t
  end.

Fixpoint startswith (p s : string) : bool :=
  match p, s with
  | EmptyString, _ => true
  | String a p', String b s' => Ascii.eqb a b && startswith p' s'
  | String _ _, EmptyString => false
  end.

(** [needle in hay] for two strings. *)
Fixpoint contains (needle hay : string) : bool :=
  startswith needle hay ||
  match hay with
  | EmptyString => false
  | String _ t => contains needle t
  end.

(** [x in xs] for a list of strings. *)
Definition mem (x : string) (xs : list string) : bool :=
  List.existsb (String.eqb x) xs.

Fixpoint lstrip (s : string) : string :=
  match s with
  | EmptyString => EmptyString
  | String c t => if isspace c then lstrip t else s
  end.

Fixpoint rstrip (s : string) : string :=
  match s with
  | EmptyString => EmptyString
  | String c t =>
      match rstrip t with
      | EmptyString => if isspace c then EmptyString else String c EmptyString
      | r => String c r
      end
  end.

Definition strip (s : string) : string := rstrip (lstrip s).

(** [s.split()]: the maximal runs of non-whitespace characters. *)
Fixpoint split_from (word : string) (s : string) : list string :=
  match s with
  | EmptyString => match word with EmptyString => [] | _ => [word] end
  | String c t =>
      if isspace c
      then match word with
           | EmptyString => split_from EmptyString t
           | _ => word :: split_from EmptyString t
           end
      else split_from (word ++ String c EmptyString) t
  end.

Definition split_whitespace : string -> list string := split_from EmptyString.

(** [re.split] on a class of single characters: empty pieces are kept. *)
Fixpoint split_on (sep : ascii -> bool) (s : string) : list string :=
  match s with
  | EmptyString => [EmptyString]
  | String c t =>
      if sep c then EmptyString :: split_on sep t
      else match split_on sep t with
           | [] => [String c EmptyString]
           | w :: ws => String c w :: ws
           end
  end.

(** [sep.join(xs)]. *)
Definition join (sep : string) (xs : list string) : string := String.concat sep xs.

(** [s[:n]]. *)
Fixpoint take (n : nat) (s : string) : string :=
  match n, s with
  | S n', String c t => String c (take n' t)
  | _, _ => EmptyString
  end.

(** [s.replace(a, b)] for single characters. *)
Definition replace_char (a b : ascii) : string -> string :=
  map (fun c => if Ascii.eqb c a then b else c).

(** [s * n]. *)
Fixpoint repeat (s : string) (n : nat) : string :=
  match n with
  | O => EmptyString
  | S n' => s ++ repeat s n'
  end.

(** [xs[-n:]] for a list. *)
Definition last_n {A : Type} (n : nat) (xs : list A) : list A :=
  List.skipn (List.length xs - n) xs.

Definition nl : string := String "010"%char EmptyString.
Definition dquote : string := String "034"%char EmptyString.
Definition squote : string := String "039"%char EmptyString.

End PyStr.

(* ================================================================== *)
(** ** Regular expressions over character classes *)
(* ================================================================== *)

Module Regex.

Inductive re : Type :=
  | Void : re
  | Eps : re
  | Cls : (ascii -> bool) -> re
  | Cat : re -> re -> re
  | Alt : re -> re -> re
  | Star : re -> re.

Definition Plus (r : re) : re := Cat r (Star r).
Definition Opt (r : re) : re := Alt Eps r.

(** [r{n}] and [r{n,n+k}]. *)
Fixpoint Times (n : nat) (r : re) : re :=
  match n with
  | O => Eps
  | S n' => Cat r (Times n' r)
  end.

Fixpoint UpTo (k : nat) (r : re) : re :=
  match k with
  | O => Eps
  | S k' => Opt (Cat r (UpTo k' r))
  end.

Definition Between (n m : nat) (r : re) : re := Cat (Times n r) (UpTo (m - n) r).
Definition AtLeast (n : nat) (r : re) : re := Cat (Times n r) (Star r).

Fixpoint nullable (r : re) : bool :=
  match r with
  | Void => false
  | Eps => true
  | Cls _ => false
  | Cat a b => nullable a && nullable b
  | Alt a b => nullable a || nullable b
  | Star _ => true
  end.

Fixpoint deriv (c : ascii) (r : re) : re :=
  match r with
  | Void => Void
  | Eps => Void
  | Cls p => if p c then Eps else Void
  | Cat a b =>
      if nullable a then Alt (Cat (deriv c a) b) (deriv c b)
      else Cat (deriv c a) b
  | Alt a b => Alt (deriv c a) (deriv c b)
  | Star a => Cat (deriv c a) (Star a)
  end.

(** The whole of [s] is a word of [r]. *)
Fixpoint fullmatch (r : re) (s : string) : bool :=
  match s with
  | EmptyString => nullable r
  | String c t => fullmatch (deriv c r) t
  end.

(** The words of [r], as a relation. *)
Inductive Lang : re -> string -> Prop :=
  | LEps : Lang Eps EmptyString
  | LCls : forall (p : ascii -> bool) c, p c = true -> Lang (Cls p) (String c EmptyString)
  | LCat : forall a b s t, Lang a s -> Lang b t -> Lang (Cat a b) (s ++ t)
  | LAltL : forall a b s, Lang a s -> Lang (Alt a b) s
  | LAltR : forall a b s, Lang b s -> Lang (Alt a b) s
  | LStar0 : forall a, Lang (Star a) EmptyString
  | LStarS : forall a s t, Lang a s -> Lang (Star a) t -> Lang (Star a) (s ++ t).

(** [s] without one final newline, when it has one. *)
Fixpoint chop_newline (s : string) : option string :=
  match s with
  | EmptyString => None
  | String c EmptyString => if Ascii.eqb c "010"%char then Some EmptyString else None
  | String c t =>
      match chop_newline t with
      | Some t' => Some (String c t')
      | None => None
      end
  end.

(** [bool(re.match('^' + r + '$', s))]: Python's [$] matches at the end of
    the text and also just before a final newline. *)
Definition match_anchored (r : re) (s : string) : bool :=
  fullmatch r s ||
  match chop_newline s with
  | Some s' => fullmatch r s'
  | None => false
  end.

(** Every class of [r] only holds characters accepted by [P]. *)
Fixpoint classes_within (P : ascii -> bool) (r : re) : Prop :=
  match r with
  | Void | Eps => True
  | Cls p => forall c, p c = true -> P c = true
  | Cat a b | Alt a b => classes_within P a /\ classes_within P b
  | Star a => classes_within P a
  end.

(** [r] and [r'] have the same shape and each class of [r] is included in
    the class of [r'] at the same place. *)
Fixpoint refines (r r' : re) : Prop :=
  match r, r' with
  | Void, Void => True
  | Eps, Eps => True
  | Cls p, Cls q => forall c, p c = true -> q c = true
  | Cat a b, Cat a' b' => refines a a' /\ refines b b'
  | Alt a b, Alt a' b' => refines a a' /\ refines b b'
  | Star a, Star a' => refines a a'
  | _, _ => False
  end.

End Regex.

(* ================================================================== *)
(** ** What the program takes from its environment *)
(* ================================================================== *)

Inductive Role : Type := system | user | assistant.

(** A chat turn, [{"role": ..., "content": ...}]. *)
Record Message : Type := mkMessage { role : Role; content : string }.

(** The Python runtime and the remote service, as far as the program uses
    them.
    - [float_of_literal] is [float] on a text of the shape digits or
      digits.digits, where it cannot fail; [float_of_str] is [float] on any
      text, [None] standing for [ValueError]; [str_of_float] is [str];
      [float_ltb x k] is [x < k] for an integer literal [k].
    - [set_to_list l] is [list(set(l))]: the elements of [l] without
      repetition, in an order the language does not fix.
    - [chat_completion n messages] is the answer of the [n]-th call of
      [client.chat.completions.create] on [messages], [None] when the call
      raises. *)
Class Runtime : Type := {
  pyfloat : Type;
  float_of_literal : string -> pyfloat;
  float_of_str : string -> option pyfloat;
  float_of_int : Z -> pyfloat;
  str_of_float : pyfloat -> string;
  float_ltb : pyfloat -> Z -> bool;
  set_to_list : list string -> list string;
  set_to_list_perm :
    forall l, Permutation (set_to_list l) (nodup string_dec l);
  chat_completion : nat -> list Message -> option string
}.

(** [dict] with text keys and values: insertion order is kept, and
    assigning to a key that is present replaces its value in place. *)
Module Dict.

Definition t : Type := list (string * string).

Definition empty : t := [].

Fixpoint get (k : string) (d : t) : option string :=
  match d with
  | [] => None
  | (k', v) :: rest => if String.eqb k' k then Some v else get k rest
  end.

Definition get_default (k : string) (default : string) (d : t) : string :=
  match get k d with
  | Some v => v
  | None => default
  end.

Fixpoint set (k v : string) (d : t) : t :=
  match d with
  | [] => [(k, v)]
  | (k', v') :: rest =>
      if String.eqb k' k then (k, v) :: rest else (k', v') :: set k v rest
  end.

(** Truth value of a dict: it is not empty. *)
Definition truthy (d : t) : bool :=
  match d with
  | [] => false
  | _ :: _ => true
  end.

End Dict.

(* ================================================================== *)
(** ** config.py *)
(* ================================================================== *)

Module Config.

Inductive ConversationPhase : Type :=
  | GREETING
  | INFO_GATHERING
  | TECH_STACK
  | TECHNICAL_QUESTIONS
  | CONCLUSION
  | ENDED.

Definition FIELD_PROMPTS : Dict.t :=
  [ ("full_name", "What is your full name?");
    ("email", "What is your email address?");
    ("phone", "What is your phone number?");
    ("years_of_experience", "How many years of professional experience do you have?");
    ("desired_positions", "What position(s) are you interested in?");
    ("current_location", "Where are you currently located?");
    ("tech_stack", "Please tell me about your tech stack - including programming languages, frameworks, databases, and tools you're proficient in.") ].

Definition EXIT_KEYWORDS : list string :=
  [ "bye"; "goodbye"; "exit"; "quit"; "end"; "stop";
    "thank you"; "thanks"; "that's all"; "no more";
    "end conversation"; "close"; "terminate" ].

End Config.

(* ================================================================== *)
(** ** utils.py *)
(* ================================================================== *)

Module Utils.
Import PyStr Regex.

Definition one_of (chars : string) (c : ascii) : bool :=
  PyStr.existsb (Ascii.eqb c) chars.

(** [[a-zA-Z0-9._%+-]] *)
Definition email_local_class (c : ascii) : bool :=
  is_letter c || is_digit c || one_of "._%+-" c.

(** [[a-zA-Z0-9.-]] *)
Definition email_domain_class (c : ascii) : bool :=
  is_letter c || is_digit c || one_of ".-" c.

(** [[a-zA-Z0-9._%+-]+@[a-zA-Z0-9.-]+\.[a-zA-Z]{2,}] *)
Definition email_pattern : re :=
  Cat (Plus (Cls email_local_class))
   (Cat (Cls (one_of "@"))
    (Cat (Plus (Cls email_domain_class))
     (Cat (Cls (one_of "."))
      (AtLeast 2 (Cls is_letter))))).

Definition validate_email (email : string) : bool :=
  match_anchored email_pattern (strip email).

(** [[\s\-\.\(\)]] *)
Definition phone_separator (c : ascii) : bool :=
  isspace c || one_of "-.()" c.

(** [\+?[0-9]{10,15}] *)
Definition phone_pattern : re :=
  Cat (Opt (Cls (one_of "+"))) (Between 10 15 (Cls is_digit)).

Definition validate_phone (phone : string) : bool :=
  let cleaned := PyStr.filter (fun c => negb (phone_separator c)) phone in
  match_anchored phone_pattern cleaned.

(** The longest run of digits at the head of [s], and what follows it.
    Among the characters below code point 256 the class [\d] holds the
    digits 0 to 9 only. *)
Fixpoint span_digits (s : string) : string * string :=
  match s with
  | String c t =>
      if is_digit c
      then let (d, r) := span_digits t in (String c d, r)
      else (EmptyString, s)
  | EmptyString => (EmptyString, EmptyString)
  end.

(** The match of [\d+(?:\.\d+)?] that starts at the head of [s], which
    begins with a digit. *)
Definition number_here (s : string) : string :=
  let (whole, rest) := span_digits s in
  match rest with
  | String "." rest' =>
      match fst (span_digits rest') with
      | EmptyString => whole
      | frac => whole ++ "." ++ frac
      end
  | _ => whole
  end.

(** [re.findall(r'(\d+(?:\.\d+)?)', s)[0]], when the list is not empty. *)
Fixpoint first_number (s : string) : option string :=
  match s with
  | EmptyString => None
  | String c t => if is_digit c then Some (number_here s) else first_number t
  end.

Definition text_to_num : list (string * Z) :=
  [ ("fresher", 0); ("fresh", 0); ("no experience", 0);
    ("one", 1); ("two", 2); ("three", 3); ("four", 4); ("five", 5);
    ("six", 6); ("seven", 7); ("eight", 8); ("nine", 9); ("ten", 10) ]%Z.

Definition validate_experience {R : Runtime} (experience : string) : option pyfloat :=
  match first_number experience with
  | Some number => Some (float_of_literal number)
  | None =>
      let lower_exp := lower experience in
      match List.find (fun entry => contains (fst entry) lower_exp) text_to_num with
      | Some (_, num) => Some (float_of_int num)
      | None => None
      end
  end.

Definition known_technologies : list string :=
  [ "python"; "java"; "javascript"; "typescript"; "c++"; "c#"; "ruby"; "go";
    "rust"; "php"; "swift"; "kotlin"; "scala"; "r"; "matlab"; "perl";
    "react"; "angular"; "vue"; "svelte"; "next.js"; "nuxt"; "html"; "css";
    "sass"; "less"; "tailwind"; "bootstrap"; "jquery"; "redux";
    "django"; "flask"; "fastapi"; "spring"; "node.js"; "express"; "rails";
    "laravel"; "asp.net"; ".net"; "graphql"; "rest"; "grpc";
    "mysql"; "postgresql"; "mongodb"; "redis"; "elasticsearch"; "sqlite";
    "oracle"; "sql server"; "dynamodb"; "cassandra"; "neo4j"; "firebase";
    "aws"; "azure"; "gcp"; "docker"; "kubernetes"; "jenkins"; "terraform";
    "ansible"; "gitlab"; "github actions"; "circleci"; "linux";
    "tensorflow"; "pytorch"; "keras"; "scikit-learn"; "pandas"; "numpy";
    "opencv"; "nltk"; "spacy"; "hugging face"; "langchain";
    "react native"; "flutter"; "android"; "ios"; "xamarin";
    "git"; "jira"; "confluence"; "figma"; "postman"; "swagger" ].

(** [tech.title() if len(tech) > 3 else tech.upper()] *)
Definition display_name (tech : string) : string :=
  if (3 <? String.length tech)%nat then title tech else upper tech.

(** The first loop of [parse_tech_stack]. *)
Definition known_matches (lower_text : string) : list string :=
  List.map display_name
    (List.filter (fun tech => contains tech lower_text) known_technologies).

(** The second loop of [parse_tech_stack], over the pieces of the text. *)
Fixpoint add_custom (custom_techs identified : list string) : list string :=
  match custom_techs with
  | [] => identified
  | piece :: rest =>
      let tech := strip piece in
      if negb (String.eqb tech EmptyString)
         && (1 <? String.length tech)%nat
         && negb (mem (lower tech) (List.map lower identified))
      then add_custom rest (identified ++ [tech])%list
      else add_custom rest identified
  end.

(** The list [identified] as it stands before the final line. *)
Definition identified_technologies (tech_stack_text : string) : list string :=
  let lower_text := lower tech_stack_text in
  let custom_techs := split_on (one_of (",;/" ++ nl)) tech_stack_text in
  add_custom custom_techs (known_matches lower_text).

(** [list(set(identified))[:15]] *)
Definition parse_tech_stack {R : Runtime} (tech_stack_text : string) : list string :=
  List.firstn 15 (set_to_list (identified_technologies tech_stack_text)).

Definition check_exit_intent (message : string) : bool :=
  let lower_message := strip (lower message) in
  List.existsb (fun keyword => contains keyword lower_message) Config.EXIT_KEYWORDS.

(** [re.sub(r'<[^>]*>', '', text)]: [inside] holds while a tag that is
    known to close is being dropped. *)
Fixpoint remove_tags_from (inside : bool) (s : string) : string :=
  match s with
  | EmptyString => EmptyString
  | String c t =>
      if inside
      then remove_tags_from (negb (Ascii.eqb c ">")) t
      else if Ascii.eqb c "<" && PyStr.existsb (Ascii.eqb ">"%char) t
           then remove_tags_from true t
           else String c (remove_tags_from false t)
  end.

Definition remove_tags : string -> string := remove_tags_from false.

Definition sanitize_input (text : string) : string :=
  match text with
  | EmptyString => EmptyString
  | _ =>
      let text := join " " (split_whitespace text) in
      let text := remove_tags text in
      take 2000 text
  end.

Definition field_labels : list (string * string) :=
  [ ("full_name", "Full Name");
    ("email", "Email Address");
    ("phone", "Phone Number");
    ("years_of_experience", "Years of Experience");
    ("desired_positions", "Desired Position(s)");
    ("current_location", "Current Location");
    ("tech_stack", "Tech Stack") ].

Definition format_candidate_summary (candidate_info : Dict.t) : string :=
  let rule := PyStr.repeat "=" 50 in
  let summary_lines :=
    ([rule; "CANDIDATE SUMMARY"; rule]
     ++ List.map (fun entry =>
                    let value := Dict.get_default (fst entry) "Not provided" candidate_info in
                    (snd entry ++ ": " ++ value)%string)
                 field_labels
     ++ [rule])%list in
  join nl summary_lines.

(** The JSON object written by [save_candidate_data]. *)
Record SavedRecord : Type := mkSavedRecord {
  candidate_id : string;
  submission_timestamp : string;
  candidate_info : Dict.t;
  conversation_history : list Message;
  data_handling_notice : string
}.

(** The files of the output directory, the most recently written first. *)
Definition Files : Type := list (string * SavedRecord).

Fixpoint read_file (path : string) (fs : Files) : option SavedRecord :=
  match fs with
  | [] => None
  | (p, r) :: rest => if String.eqb p path then Some r else read_file path rest
  end.

(** The two readings of [datetime.now()] in [save_candidate_data]:
    formatted with [%Y%m%d_%H%M%S] and in ISO form. *)
Record Clock : Type := mkClock { stamp : string; isoformat : string }.

(** The path is [os.path.join(output_dir, name)] as it is for a directory
    name that is not empty and does not end with a slash, where the
    separator of paths is the slash. *)
Definition save_candidate_data (now : Clock) (info : Dict.t) (history : list Message)
    (output_dir : string) (fs : Files) : string * Files :=
  let timestamp := stamp now in
  let cid := "candidate_" ++ timestamp in
  let data :=
    {| candidate_id := cid;
       submission_timestamp := isoformat now;
       candidate_info := info;
       conversation_history := history;
       data_handling_notice := "This data is collected for recruitment purposes only." |} in
  let filepath := output_dir ++ "/" ++ cid ++ ".json" in
  (filepath, (filepath, data) :: fs).

Definition format_conversation_for_llm (messages : list Message) : string :=
  let formatted :=
    List.map (fun msg =>
                let who := match role msg with user => "Candidate" | _ => "Assistant" end in
                who ++ ": " ++ content msg)
             messages in
  join nl formatted.

End Utils.

(* ================================================================== *)
(** ** prompts.py *)
(* ================================================================== *)

Module Prompts.
Import PyStr.

Definition SYSTEM_PROMPT : string :=
  "You are a professional and friendly Hiring Assistant for TalentScout, " ++ nl
  ++ "a technology recruitment agency. Your role is to conduct initial candidate screening " ++ nl
  ++ "by gathering essential information and assessing technical proficiency." ++ nl
  ++ nl
  ++ "CORE RESPONSIBILITIES:" ++ nl
  ++ "1. Greet candidates warmly and explain your purpose" ++ nl
  ++ "2. Collect required information in a conversational manner" ++ nl
  ++ "3. Generate relevant technical questions based on the candidate's tech stack" ++ nl
  ++ "4. Maintain a professional yet approachable tone throughout" ++ nl
  ++ nl
  ++ "STRICT GUIDELINES:" ++ nl
  ++ "- NEVER deviate from recruitment-related topics" ++ nl
  ++ "- NEVER provide technical answers or solutions to the questions you ask" ++ nl
  ++ "- NEVER share or discuss other candidates' information" ++ nl
  ++ "- ALWAYS validate information politely when unclear" ++ nl
  ++ "- ALWAYS maintain context from previous messages" ++ nl
  ++ "- ALWAYS be encouraging and supportive" ++ nl
  ++ nl
  ++ "CONVERSATION STRUCTURE:" ++ nl
  ++ "1. Greeting Phase: Welcome the candidate and explain your purpose" ++ nl
  ++ "2. Information Gathering: Collect details naturally (name, email, phone, experience, position, location)" ++ nl
  ++ "3. Tech Stack Discussion: Understand their technical skills in depth" ++ nl
  ++ "4. Technical Assessment: Generate and ask relevant technical questions" ++ nl
  ++ "5. Conclusion: Thank them and explain next steps" ++ nl
  ++ nl
  ++ "When generating technical questions:" ++ nl
  ++ "- Create 3-5 questions per technology mentioned" ++ nl
  ++ "- Include a mix of conceptual and practical questions" ++ nl
  ++ "- Progress from basic to advanced difficulty" ++ nl
  ++ "- Focus on real-world application scenarios" ++ nl
  ++ "- Cover best practices and common challenges" ++ nl
  ++ nl
  ++ "If you detect any exit keywords (bye, goodbye, exit, quit, end, stop, thanks, that's all), " ++ nl
  ++ "gracefully conclude the conversation and provide next steps information." ++ nl
  ++ nl
  ++ "If the user asks something unrelated to the interview process, politely redirect " ++ nl
  ++ "them back to the screening process without being dismissive.".

End Prompts.

(* ================================================================== *)
(** ** llm_client.py *)
(* ================================================================== *)

Module LLMClient.
Import PyStr.

(** The client.  [api_calls] and [slept] are bookkeeping of the model:
    the number of completion calls made so far, which selects the answer
    of the next one, and the arguments of [time.sleep] in seconds, oldest
    first. *)
Record t : Type := mk {
  demo_mode : bool;
  conversation_history : list Message;
  api_calls : nat;
  slept : list nat
}.

Definition with_history (h : list Message) (c : t) : t :=
  mk (demo_mode c) h (api_calls c) (slept c).

Definition count_call (c : t) : t :=
  mk (demo_mode c) (conversation_history c) (S (api_calls c)) (slept c).

Definition sleep (seconds : nat) (c : t) : t :=
  mk (demo_mode c) (conversation_history c) (api_calls c) (slept c ++ [seconds])%list.

Definition system_turn : Message := mkMessage system Prompts.SYSTEM_PROMPT.

(** The canned texts of [_get_demo_response].  Their three pictographs lie
    above code point 255 and are written as UTF-8 bytes; the program never
    inspects them. *)
Definition demo_greeting : string :=
  "👋 Welcome to TalentScout! I'm your AI Hiring Assistant." ++ nl
  ++ nl
  ++ "I'm here to help with your initial screening for tech positions. This process will take about 5-10 minutes." ++ nl
  ++ nl
  ++ "**Note:** Running in DEMO MODE - Connect a valid API key for full AI capabilities." ++ nl
  ++ nl
  ++ "Let's get started! **What is your full name?**".

Definition demo_questions : string :=
  "Based on your tech stack, here are some technical questions:" ++ nl
  ++ nl
  ++ "**Python:**" ++ nl
  ++ "1. Explain the difference between `list` and `tuple` in Python." ++ nl
  ++ "2. What is a decorator and how would you use it?" ++ nl
  ++ "3. How does Python handle memory management?" ++ nl
  ++ nl
  ++ "Please share your thoughts on these questions!".

Definition demo_conclusion : string :=
  "🎉 Thank you for completing the screening process!" ++ nl
  ++ nl
  ++ "**Next Steps:**" ++ nl
  ++ "- Our team will review your responses within 5-7 business days" ++ nl
  ++ "- If selected, you'll receive an email for the next interview round" ++ nl
  ++ "- For questions, contact us at hr@talentscout.com" ++ nl
  ++ nl
  ++ "We appreciate your time and interest in TalentScout. Good luck! 🍀".

Definition demo_default : string :=
  "Thank you for your response! This is helpful information." ++ nl
  ++ nl
  ++ "Would you like to continue with the screening process?".

Definition _get_demo_response (prompt : string) : string :=
  let prompt_lower := lower prompt in
  if contains "greeting" prompt_lower || contains "welcome" prompt_lower
  then demo_greeting
  else if contains "technical" prompt_lower || contains "question" prompt_lower
  then demo_questions
  else if contains "conclusion" prompt_lower || contains "closing" prompt_lower
  then demo_conclusion
  else demo_default.

(** [__init__]: [api_key] is the key argument or environment variable,
    [None] or empty when there is none. *)
Definition init {R : Runtime} (api_key : option string) : t :=
  let fresh := mk false [] 0 [] in
  match api_key with
  | None | Some EmptyString => mk true [] 0 []
  | Some key =>
      if startswith "YOUR_" key then mk true [] 0 []
      else
        match chat_completion 0 [mkMessage user "Say OK"] with
        | Some EmptyString => count_call fresh
        | Some _ => with_history [system_turn] (count_call fresh)
        | None => mk true [] 1 []
        end
  end.

(** [[history[0]] + history[-20:]] when [len(history) > 21]. *)
Definition trim (history : list Message) : list Message :=
  if (21 <? List.length history)%nat
  then match history with
       | first :: _ => first :: last_n 20 history
       | [] => history
       end
  else history.

(** The [except] branch: the last turn is removed when it is a user turn. *)
Definition drop_failed_turn (history : list Message) : list Message :=
  match List.rev history with
  | mkMessage user _ :: _ => List.removelast history
  | _ => history
  end.

(** The [for attempt in range(max_retries)] loop of [generate_response],
    entered with [remaining] iterations left. *)
Fixpoint attempt_loop {R : Runtime} (remaining attempt max_retries : nat)
    (prompt full_prompt : string) (c : t) : string * t :=
  match remaining with
  | O => (_get_demo_response prompt, c)
  | S remaining' =>
      let c := with_history (conversation_history c ++ [mkMessage user full_prompt])%list c in
      match chat_completion (api_calls c) (conversation_history c) with
      | Some assistant_message =>
          let c := count_call c in
          let c := with_history
                     (conversation_history c ++ [mkMessage assistant assistant_message])%list c in
          let c := with_history (trim (conversation_history c)) c in
          (assistant_message, c)
      | None =>
          let c := count_call c in
          let c := with_history (drop_failed_turn (conversation_history c)) c in
          if (attempt <? max_retries - 1)%nat
          then
            let wait_time := (2 ^ attempt) * 1 in
            attempt_loop remaining' (S attempt) max_retries prompt full_prompt (sleep wait_time c)
          else (_get_demo_response prompt, c)
      end
  end.

Definition generate_response_with {R : Runtime} (prompt : string) (context : option string)
    (max_retries : nat) (c : t) : string * t :=
  if demo_mode c then (_get_demo_response prompt, c)
  else
    let full_prompt :=
      match context with
      | None | Some EmptyString => prompt
      | Some ctx => "Context:" ++ nl ++ ctx ++ nl ++ nl ++ "Task:" ++ nl ++ prompt
      end in
    attempt_loop max_retries 0 max_retries prompt full_prompt c.

(** [generate_response(prompt)] with the default arguments. *)
Definition generate_response {R : Runtime} (prompt : string) (c : t) : string * t :=
  generate_response_with prompt None 3 c.

Definition generate_with_history {R : Runtime} (user_message : string)
    (history : list Message) (c : t) : string * t :=
  generate_response user_message c.

(** The argument [experience_years]: a float, or the integer [0] of the
    [except] branch of the caller. *)
Inductive years {R : Runtime} : Type :=
  | FloatYears : pyfloat -> years
  | IntYears : Z -> years.

Definition years_ltb {R : Runtime} (y : years) (k : Z) : bool :=
  match y with
  | FloatYears x => float_ltb x k
  | IntYears z => (z <? k)%Z
  end.

Definition years_str {R : Runtime} (y : years) : string :=
  match y with
  | FloatYears x => str_of_float x
  | IntYears z => DecimalString.NilZero.string_of_int (Z.to_int z)
  end.

Definition generate_technical_questions {R : Runtime} (tech_stack : list string)
    (experience_years : years) (position : string) (c : t) : string * t :=
  let '(difficulty, focus) :=
    if years_ltb experience_years 2
    then ("entry-level to intermediate",
          "fundamental concepts, basic implementations, and learning ability")
    else if years_ltb experience_years 5
    then ("intermediate to advanced",
          "practical application, problem-solving, and best practices")
    else ("advanced to expert",
          "system design, architecture decisions, and technical leadership") in
  let tech_list := join ", " tech_stack in
  let prompt :=
    "Generate technical interview questions for a candidate with the following profile:" ++ nl
    ++ nl
    ++ "Technologies: " ++ tech_list ++ nl
    ++ "Experience: " ++ years_str experience_years ++ " years" ++ nl
    ++ "Position: " ++ position ++ nl
    ++ "Difficulty Level: " ++ difficulty ++ nl
    ++ "Focus Areas: " ++ focus ++ nl
    ++ nl
    ++ "For each technology, generate 3-5 questions that:" ++ nl
    ++ "1. Test both theoretical understanding and practical knowledge" ++ nl
    ++ "2. Include at least one scenario-based question" ++ nl
    ++ "3. Cover common challenges and best practices" ++ nl
    ++ "4. Are progressively challenging" ++ nl
    ++ nl
    ++ "Format the output clearly with technology headers and numbered questions." ++ nl
    ++ "Make questions specific and relevant to real-world scenarios." in
  generate_response prompt c.

Definition generate_greeting {R : Runtime} (c : t) : string * t :=
  let prompt :=
    "Generate a warm, professional greeting for a new candidate starting " ++ nl
    ++ "the screening process. Include:" ++ nl
    ++ "1. Welcome to TalentScout" ++ nl
    ++ "2. Brief explanation of the screening purpose" ++ nl
    ++ "3. Ask for their name to begin" ++ nl
    ++ nl
    ++ "Keep it concise (3-4 sentences), friendly, and professional." in
  generate_response prompt c.

Definition generate_conclusion {R : Runtime} (candidate_summary : string) (c : t) : string * t :=
  let prompt :=
    "The screening process is complete. Generate a professional closing message." ++ nl
    ++ nl
    ++ "Candidate Summary:" ++ nl
    ++ candidate_summary ++ nl
    ++ nl
    ++ "Include:" ++ nl
    ++ "1. Thank them for their time" ++ nl
    ++ "2. Confirm their information has been recorded" ++ nl
    ++ "3. Explain next steps (review within 5-7 business days)" ++ nl
    ++ "4. Provide contact email: hr@talentscout.com" ++ nl
    ++ "5. End on a positive, encouraging note" ++ nl
    ++ nl
    ++ "Keep it professional and warm." in
  generate_response prompt c.

Definition reset_chat (c : t) : t := with_history [system_turn] c.

(** A run of calls of [generate_response], one for each prompt in turn. *)
Definition exchanges {R : Runtime} (prompts : list string) (c : t) : t :=
  List.fold_left (fun c prompt => snd (generate_response prompt c)) prompts c.

End LLMClient.

(* ================================================================== *)
(** ** conversation_handler.py *)
(* ================================================================== *)

Module Handler.
Import PyStr Config Utils.

Record ConversationState : Type := mkState {
  phase : ConversationPhase;
  candidate_info : Dict.t;
  current_field_index : nat;
  conversation_history : list Message;
  tech_stack_parsed : list string;
  technical_questions_asked : bool;
  questions_generated : string;
  awaiting_validation : option string
}.

(** [ConversationState()] *)
Definition initial_state : ConversationState :=
  mkState GREETING Dict.empty 0 [] [] false EmptyString None.

(** A [ConversationHandler]: its client and its state. *)
Record t : Type := mk { llm : LLMClient.t; state : ConversationState }.

(** [ConversationHandler(llm_client)] *)
Definition new (llm_client : LLMClient.t) : t := mk llm_client initial_state.

(** *** Methods as computations on the handler

    A method reads and updates the handler and either returns a value or
    raises ([None]); the only exception the methods can raise themselves
    is the [IndexError] of a list subscript. *)

Definition M (A : Type) : Type := t -> option (A * t).

Definition ret {A : Type} (a : A) : M A := fun h => Some (a, h).

Definition bind {A B : Type} (m : M A) (k : A -> M B) : M B :=
  fun h =>
    match m h with
    | Some (a, h') => k a h'
    | None => None
    end.

Definition raise {A : Type} : M A := fun _ => None.

Notation "x <- m ;; k" := (bind m (fun x => k))
  (at level 61, m at next level, right associativity).
Notation "m ;; k" := (bind m (fun _ => k))
  (at level 61, right associativity).

Definition read {A : Type} (field : ConversationState -> A) : M A :=
  fun h => Some (field (state h), h).

Definition update (f : ConversationState -> ConversationState) : M unit :=
  fun h => Some (tt, mk (llm h) (f (state h))).

(** A call of a method of [self.llm]. *)
Definition ask {A : Type} (f : LLMClient.t -> A * LLMClient.t) : M A :=
  fun h => let (a, c) := f (llm h) in Some (a, mk c (state h)).

Definition set_phase (p : ConversationPhase) : M unit :=
  update (fun s => mkState p (candidate_info s) (current_field_index s)
                     (conversation_history s) (tech_stack_parsed s)
                     (technical_questions_asked s) (questions_generated s)
                     (awaiting_validation s)).

(** [self.state.candidate_info[key] = value] *)
Definition store (key value : string) : M unit :=
  update (fun s => mkState (phase s) (Dict.set key value (candidate_info s))
                     (current_field_index s) (conversation_history s)
                     (tech_stack_parsed s) (technical_questions_asked s)
                     (questions_generated s) (awaiting_validation s)).

Definition set_current_field_index (i : nat) : M unit :=
  update (fun s => mkState (phase s) (candidate_info s) i
                     (conversation_history s) (tech_stack_parsed s)
                     (technical_questions_asked s) (questions_generated s)
                     (awaiting_validation s)).

Definition set_tech_stack_parsed (techs : list string) : M unit :=
  update (fun s => mkState (phase s) (candidate_info s) (current_field_index s)
                     (conversation_history s) techs
                     (technical_questions_asked s) (questions_generated s)
                     (awaiting_validation s)).

Definition set_questions (questions : string) : M unit :=
  update (fun s => mkState (phase s) (candidate_info s) (current_field_index s)
                     (conversation_history s) (tech_stack_parsed s)
                     true questions (awaiting_validation s)).

Definition _add_to_history (who : Role) (text : string) : M unit :=
  update (fun s => mkState (phase s) (candidate_info s) (current_field_index s)
                     (conversation_history s ++ [mkMessage who text])%list
                     (tech_stack_parsed s) (technical_questions_asked s)
                     (questions_generated s) (awaiting_validation s)).

Definition fields_to_collect : list string :=
  [ "full_name"; "email"; "phone"; "years_of_experience";
    "desired_positions"; "current_location" ].

Definition _generate_field_prompt {R : Runtime} (field previous_response : string) : M string :=
  let field_question :=
    Dict.get_default field ("Could you please provide your " ++ field ++ "?") FIELD_PROMPTS in
  let prompt :=
    "The candidate just told us: " ++ dquote ++ previous_response ++ dquote ++ nl
    ++ "        " ++ nl
    ++ "Now we need to ask for their " ++ replace_char "_" " " field ++ "." ++ nl
    ++ "Generate a natural, conversational response that:" ++ nl
    ++ "1. Briefly acknowledges what they said" ++ nl
    ++ "2. Asks for: " ++ field_question ++ nl
    ++ nl
    ++ "Keep it friendly and concise (1-2 sentences)." in
  ask (LLMClient.generate_response prompt).

Definition _generate_validation_response (field invalid_value : string) : string :=
  if String.eqb field "email" then
    "I notice the email '" ++ invalid_value ++ "' might have a small typo. Could you please provide a valid email address? For example: name@example.com"
  else if String.eqb field "phone" then
    "I'd like to make sure I have your correct phone number. Could you please provide it in a standard format? For example: +1234567890 or 123-456-7890"
  else "Could you please provide a valid " ++ field ++ "?".

Definition _generate_tech_stack_prompt : M string :=
  info <- read candidate_info ;;
  let name := Dict.get_default "full_name" "there" info in
  ret ("Thank you for sharing that information, " ++ name ++ "! Now, let's talk about your technical skills. Please tell me about your tech stack - including the programming languages, frameworks, databases, and tools you're proficient in. The more detail you provide, the better I can assess your technical background.").

Definition _generate_conclusion {R : Runtime} : M string :=
  info <- read candidate_info ;;
  let summary := format_candidate_summary info in
  ask (LLMClient.generate_conclusion summary).

Definition _handle_exit {R : Runtime} : M string :=
  set_phase ENDED ;;
  info <- read candidate_info ;;
  let summary := format_candidate_summary info in
  conclusion <- ask (LLMClient.generate_conclusion summary) ;;
  _add_to_history assistant conclusion ;;
  ret conclusion.

(** Lines 159 to 173 of [_handle_info_gathering]: what follows once the
    answer has been stored. *)
Definition next_field_or_tech_stack {R : Runtime} (message : string) : M (string * bool) :=
  index <- read current_field_index ;;
  if (List.length fields_to_collect <=? index)%nat then
    set_phase TECH_STACK ;;
    response <- _generate_tech_stack_prompt ;;
    _add_to_history assistant response ;;
    ret (response, false)
  else
    match List.nth_error fields_to_collect index with
    | None => raise
    | Some current_field =>
        set_current_field_index (index + 1) ;;
        response <- _generate_field_prompt current_field message ;;
        _add_to_history assistant response ;;
        ret (response, false)
    end.

Definition _handle_info_gathering {R : Runtime} (message : string) : M (string * bool) :=
  index <- read current_field_index ;;
  if (0 <? index)%nat then
    match List.nth_error fields_to_collect (index - 1) with
    | None => raise
    | Some prev_field =>
        if String.eqb prev_field "email" && negb (validate_email message) then
          let response := _generate_validation_response "email" message in
          _add_to_history assistant response ;;
          ret (response, false)
        else if String.eqb prev_field "phone" && negb (validate_phone message) then
          let response := _generate_validation_response "phone" message in
          _add_to_history assistant response ;;
          ret (response, false)
        else if String.eqb prev_field "years_of_experience" then
          match validate_experience message with
          | Some years => store prev_field (str_of_float years)
          | None => store prev_field message
          end ;;
          next_field_or_tech_stack message
        else
          store prev_field message ;;
          next_field_or_tech_stack message
    end
  else
    store "full_name" message ;;
    set_current_field_index 1 ;;
    next_field_or_tech_stack message.

Definition _handle_greeting {R : Runtime} (message : string) : M (string * bool) :=
  set_phase INFO_GATHERING ;;
  _handle_info_gathering message.

Definition tech_stack_reprompt : string :=
  "I'd like to understand your technical background better. Could you please specify the programming languages, frameworks, databases, or tools you work with? For example: Python, Django, PostgreSQL, Docker, etc.".

Definition _handle_tech_stack {R : Runtime} (message : string) : M (string * bool) :=
  set_tech_stack_parsed (parse_tech_stack message) ;;
  store "tech_stack" message ;;
  parsed <- read tech_stack_parsed ;;
  match parsed with
  | [] =>
      let response := tech_stack_reprompt in
      _add_to_history assistant response ;;
      ret (response, false)
  | _ :: _ =>
      set_phase TECHNICAL_QUESTIONS ;;
      info <- read candidate_info ;;
      let experience := Dict.get_default "years_of_experience" "0" info in
      let exp_years :=
        match float_of_str experience with
        | Some x => LLMClient.FloatYears x
        | None => LLMClient.IntYears 0
        end in
      let position := Dict.get_default "desired_positions" "Software Developer" info in
      questions <- ask (LLMClient.generate_technical_questions parsed exp_years position) ;;
      set_questions questions ;;
      let tech_list := join ", " parsed in
      let response :=
        "Excellent! I can see you have experience with " ++ tech_list ++ ". That's a great combination of skills!" ++ nl
        ++ nl
        ++ "Now, I'd like to ask you some technical questions to better understand your proficiency. Please take your time with each question." ++ nl
        ++ nl
        ++ questions ++ nl
        ++ nl
        ++ "Please share your thoughts on these questions. You can answer them in any order, or let me know if you'd like to discuss any particular topic in more detail." in
      _add_to_history assistant response ;;
      ret (response, false)
  end.

Definition conclusion_indicators : list string :=
  [ "that's all"; "done"; "finished"; "no more"; "nothing else";
    "that covers"; "i think that's it"; "any questions about" ].

Definition evaluation_prompt (context message : string) : string :=
  "The candidate has provided responses to technical questions." ++ nl
  ++ "        " ++ nl
  ++ "Previous context:" ++ nl
  ++ context ++ nl
  ++ nl
  ++ "Their latest response: " ++ message ++ nl
  ++ nl
  ++ "Evaluate their response professionally:" ++ nl
  ++ "1. Acknowledge their answer briefly" ++ nl
  ++ "2. If they answered well, provide positive feedback" ++ nl
  ++ "3. If they want to discuss more or have questions, engage appropriately" ++ nl
  ++ "4. After sufficient technical discussion, ask if they have any questions about the role or company" ++ nl
  ++ nl
  ++ "Keep the response concise and professional. Do not provide detailed answers or solutions.".

Definition _handle_technical_questions {R : Runtime} (message : string) : M (string * bool) :=
  history <- read conversation_history ;;
  let context := format_conversation_for_llm (last_n 6 history) in
  let prompt := evaluation_prompt context message in
  response <- ask (LLMClient.generate_response prompt) ;;
  if List.existsb (fun indicator => contains indicator (lower message)) conclusion_indicators
  then
    set_phase CONCLUSION ;;
    conclusion_response <- _generate_conclusion ;;
    _add_to_history assistant conclusion_response ;;
    ret (conclusion_response, false)
  else
    _add_to_history assistant response ;;
    ret (response, false).

Definition _handle_conclusion {R : Runtime} (message : string) : M (string * bool) :=
  if check_exit_intent message then
    conclusion <- _handle_exit ;;
    ret (conclusion, true)
  else
    response <- ask (LLMClient.generate_response
      ("The candidate said: '" ++ message ++ "'. Respond briefly and professionally, then remind them that their application is complete and they can type 'bye' to end.")) ;;
    _add_to_history assistant response ;;
    ret (response, false).

Definition _handle_fallback {R : Runtime} (message : string) : M (string * bool) :=
  history <- read conversation_history ;;
  response <- ask (LLMClient.generate_with_history message history) ;;
  _add_to_history assistant response ;;
  ret (response, false).

Definition empty_reprompt : string :=
  "I didn't quite catch that. Could you please try again?".

Definition process_message {R : Runtime} (user_message : string) : M (string * bool) :=
  let user_message := sanitize_input user_message in
  match user_message with
  | EmptyString => ret (empty_reprompt, false)
  | _ =>
      _add_to_history user user_message ;;
      if check_exit_intent user_message then
        conclusion <- _handle_exit ;;
        ret (conclusion, true)
      else
        current <- read phase ;;
        match current with
        | GREETING => _handle_greeting user_message
        | INFO_GATHERING => _handle_info_gathering user_message
        | TECH_STACK => _handle_tech_stack user_message
        | TECHNICAL_QUESTIONS => _handle_technical_questions user_message
        | CONCLUSION => _handle_conclusion user_message
        | ENDED => _handle_fallback user_message
        end
  end.

Definition get_initial_greeting {R : Runtime} : M string :=
  greeting <- ask LLMClient.generate_greeting ;;
  _add_to_history assistant greeting ;;
  set_phase INFO_GATHERING ;;
  ret greeting.

Definition reset (h : t) : t := mk (LLMClient.reset_chat (llm h)) initial_state.

Definition get_candidate_info (h : t) : Dict.t := candidate_info (state h).
Definition get_conversation_history (h : t) : list Message := conversation_history (state h).
Definition get_current_phase (h : t) : ConversationPhase := phase (state h).

Definition is_ended (h : t) : bool :=
  match phase (state h) with
  | ENDED => true
  | _ => false
  end.

(** The place of a phase in the order of the screening. *)
Definition phase_rank (p : ConversationPhase) : nat :=
  match p with
  | GREETING => 0
  | INFO_GATHERING => 1
  | TECH_STACK => 2
  | TECHNICAL_QUESTIONS => 3
  | CONCLUSION => 4
  | ENDED => 5
  end.

(** A session: the messages are processed one after the other; the result
    lists the phase after each call, and is [None] if a call raises. *)
Fixpoint run_session {R : Runtime} (messages : list string) (h : t)
    : option (list ConversationPhase * t) :=
  match messages with
  | [] => Some ([], h)
  | m :: rest =>
      match process_message m h with
      | None => None
      | Some (_, h') =>
          match run_session rest h' with
          | None => None
          | Some (phases, h'') => Some (phase (state h') :: phases, h'')
          end
      end
  end.

End Handler.

(* ================================================================== *)
(** ** app.py: the chat loop *)
(* ================================================================== *)

Module App.
Import PyStr Utils.

(** The entries of [st.session_state]. *)
Record SessionState : Type := mkSession {
  conversation_handler : Handler.t;
  messages : list Message;
  initialized : bool;
  conversation_ended : bool
}.

Inductive Notice : Type :=
  | success : string -> Notice
  | warning : string -> Notice.

(** The session together with what the page leaves outside of it: the
    files of the output directory and the notices shown in the sidebar. *)
Record World : Type := mkWorld {
  session : SessionState;
  files : Files;
  sidebar : list Notice
}.

Definition export_conversation (now : Clock) (w : World) : World :=
  let handler := conversation_handler (session w) in
  let info := Handler.get_candidate_info handler in
  let history := Handler.get_conversation_history handler in
  if Dict.truthy info then
    let (filepath, fs) := save_candidate_data now info history "candidate_data" (files w) in
    mkWorld (session w) fs (sidebar w ++ [success ("✅ Saved to " ++ filepath)])%list
  else
    mkWorld (session w) (files w) (sidebar w ++ [warning "No data to export yet"])%list.

Definition start_conversation {R : Runtime} (w : World) : option World :=
  let s := session w in
  match Handler.get_initial_greeting (conversation_handler s) with
  | None => None
  | Some (greeting, h) =>
      Some (mkWorld (mkSession h (messages s ++ [mkMessage assistant greeting])%list
                               true (conversation_ended s))
                    (files w) (sidebar w))
  end.

(** [render_chat_interface] when the candidate submits [prompt] in the
    chat input. *)
Definition render_chat_interface {R : Runtime} (now : Clock) (prompt : string) (w : World)
    : option World :=
  let s := session w in
  if negb (initialized s) then Some w
  else if conversation_ended s then Some w
  else
    match prompt with
    | EmptyString => Some w
    | _ =>
        let shown := (messages s ++ [mkMessage user prompt])%list in
        match Handler.process_message prompt (conversation_handler s) with
        | None => None
        | Some ((response, ended), h) =>
            let shown := (shown ++ [mkMessage assistant response])%list in
            if ended then
              Some (export_conversation now
                      (mkWorld (mkSession h shown (initialized s) true) (files w) (sidebar w)))
            else
              Some (mkWorld (mkSession h shown (initialized s) (conversation_ended s))
                            (files w) (sidebar w))
        end
    end.

(** [initialize_session_state] on an empty session, for a client [c]. *)
Definition initial_world (c : LLMClient.t) : World :=
  mkWorld (mkSession (Handler.new c) [] false false) [] [].

End App.

(* ================================================================== *)
(** ** Two runtimes to run the program on *)
(* ================================================================== *)

Module Examples.
Import PyStr Utils.

(** A decimal stand-in for [float]: the integer part and the digits after
    the point.  It is exact on the short non-negative decimals of the
    examples below; CPython's [float] reads more texts and rounds to
    binary64. *)
Definition decimal : Type := (N * string)%type.

Fixpoint digits_value (acc : N) (s : string) : N :=
  match s with
  | EmptyString => acc
  | String c t => digits_value (acc * 10 + (code c - 48))%N t
  end.

Fixpoint drop_trailing_zeros (s : string) : string :=
  match s with
  | EmptyString => EmptyString
  | String c t =>
      match drop_trailing_zeros t with
      | EmptyString => if Ascii.eqb c "0" then EmptyString else String c EmptyString
      | r => String c r
      end
  end.

Definition decimal_of_literal (s : string) : decimal :=
  let (whole, rest) := span_digits s in
  (digits_value 0 whole,
   match rest with
   | String "." frac => drop_trailing_zeros (fst (span_digits frac))
   | _ => EmptyString
   end).

Definition decimal_of_str (s : string) : option decimal :=
  match first_number s with
  | Some n => if String.eqb n s then Some (decimal_of_literal s) else None
  | None => None
  end.

Definition decimal_str (x : decimal) : string :=
  NilZero.string_of_uint (N.to_uint (fst x)) ++ "."
  ++ match snd x with
     | EmptyString => "0"
     | frac => frac
     end.

Definition decimal_ltb (x : decimal) (k : Z) : bool := (Z.of_N (fst x) <? k)%Z.

(** A runtime whose remote endpoint answers as [remote] says, and whose
    sets list their elements in the order [nodup] leaves them. *)
Definition runtime_with (remote : nat -> list Message -> option string) : Runtime :=
  {| pyfloat := decimal;
     float_of_literal := decimal_of_literal;
     float_of_str := decimal_of_str;
     float_of_int := fun z => (Z.to_N z, EmptyString);
     str_of_float := decimal_str;
     float_ltb := decimal_ltb;
     set_to_list := nodup string_dec;
     set_to_list_perm := fun l => Permutation_refl (nodup string_dec l);
     chat_completion := remote |}.

(** The same, with sets listing their elements the other way round. *)
Definition reversing : Runtime :=
  {| pyfloat := decimal;
     float_of_literal := decimal_of_literal;
     float_of_str := decimal_of_str;
     float_of_int := fun z => (Z.to_N z, EmptyString);
     str_of_float := decimal_str;
     float_ltb := decimal_ltb;
     set_to_list := fun l => List.rev (nodup string_dec l);
     set_to_list_perm :=
       fun l => Permutation_sym (Permutation_rev (nodup string_dec l));
     chat_completion := fun _ _ => None |}.

(** The endpoint is unreachable: every call raises. *)
Definition unreachable : Runtime := runtime_with (fun _ _ => None).

(** The endpoint answers every call with the same text. *)
Definition answering : Runtime := runtime_with (fun _ _ => Some "OK").


(** The client built without an API key: demo mode. *)
Definition demo_client : LLMClient.t := LLMClient.init (R := unreachable) None.

(** The client built with a key against the answering endpoint. *)
Definition online_client : LLMClient.t := LLMClient.init (R := answering) (Some "gsk_key").


(** An online client whose buffer holds the preamble alone. *)
Definition connected : LLMClient.t := LLMClient.mk false [LLMClient.system_turn] 0 [].

(** A handler in the phase [p] with the answers [info] and the cursor
    [index], on the demo client. *)
Definition handler_at (p : Config.ConversationPhase) (info : Dict.t) (index : nat)
    : Handler.t :=
  Handler.mk demo_client (Handler.mkState p info index [] [] false EmptyString None).

(** The six answers of a candidate, as stored. *)
Definition six_fields : Dict.t :=
  [ ("full_name", "Ann Lee"); ("email", "ann@x.org"); ("phone", "+1 234 567 8901");
    ("years_of_experience", "3.5"); ("desired_positions", "Python developer");
    ("current_location", "Paris") ].

Definition noon : Clock := mkClock "20240101_120000" "2024-01-01T12:00:00.000000".

(** A started session in which nothing has been answered yet. *)
Definition started : App.World :=
  App.mkWorld (App.mkSession (handler_at Config.INFO_GATHERING [] 0) [] true false) [] [].

(** A started session that has reached the tech stack question. *)
Definition six_answered : App.World :=
  App.mkWorld (App.mkSession (handler_at Config.TECH_STACK six_fields 6) [] true false) [] [].

End Examples.

(* ================================================================== *)
(** ** Vocabulary of the properties *)
(* ================================================================== *)

Module Spec.
Import PyStr Regex Config Utils.

(** [k] occurs in [s]. *)
Definition Substring (k s : string) : Prop :=
  exists pre post, s = pre ++ k ++ post.

(** [\w] read as the ASCII word characters [[A-Za-z0-9_]]. *)
Definition word_class (c : ascii) : bool :=
  is_letter c || is_digit c || one_of "_" c.

(** The pattern as the specification words it:
    [[\w.+-]+@[\w.-]+\.[A-Za-z]{2,}]. *)
Definition stated_email_pattern : re :=
  Cat (Plus (Cls (fun c => word_class c || one_of ".+-" c)))
   (Cat (Cls (one_of "@"))
    (Cat (Plus (Cls (fun c => word_class c || one_of ".-" c)))
     (Cat (Cls (one_of "."))
      (AtLeast 2 (Cls is_letter))))).

(** The stated pattern with the underscore taken out of the domain part:
    [[\w.+-]+@[A-Za-z0-9.-]+\.[A-Za-z]{2,}]. *)
Definition narrowed_email_pattern : re :=
  Cat (Plus (Cls (fun c => word_class c || one_of ".+-" c)))
   (Cat (Cls (one_of "@"))
    (Cat (Plus (Cls (fun c => is_letter c || is_digit c || one_of ".-" c)))
     (Cat (Cls (one_of "."))
      (AtLeast 2 (Cls is_letter))))).

(** What follows the last dot of [s], if [s] has a dot. *)
Fixpoint final_label (s : string) : option string :=
  match s with
  | EmptyString => None
  | String c t =>
      match final_label t with
      | Some l => Some l
      | None => if Ascii.eqb c "." then Some t else None
      end
  end.

(** [s] ends with a dot followed by two letters or more, and nothing else. *)
Definition has_final_label (s : string) : bool :=
  match final_label s with
  | Some l => (2 <=? String.length l)%nat && PyStr.forallb is_letter l
  | None => false
  end.

Definition has_at_sign (s : string) : bool := PyStr.existsb (Ascii.eqb "@"%char) s.

(** One call moves the phase from [p] to [q] in the allowed way: it stays,
    it moves to the next phase, or the message had exit intent and the
    session ended. *)
Definition forward_step (p q : ConversationPhase) (exit_intent : bool) : Prop :=
  q = p \/
  Handler.phase_rank q = S (Handler.phase_rank p) \/
  (exit_intent = true /\ q = ENDED).

(** The phases [phases] reached after each of [messages], from the phase
    [p]: never backward, and forward only in the allowed way. *)
Fixpoint forward_trace (p : ConversationPhase) (messages : list string)
    (phases : list ConversationPhase) : Prop :=
  match messages, phases with
  | [], [] => True
  | m :: messages', q :: phases' =>
      Handler.phase_rank p <= Handler.phase_rank q /\
      forward_step p q (check_exit_intent (sanitize_input m)) /\
      forward_trace q messages' phases'
  | _, _ => False
  end.

(** What holds of a handler throughout a session: the cursor stays within
    the six fields, and is still at the first one in the greeting phase. *)
Definition session_invariant (h : Handler.t) : Prop :=
  Handler.current_field_index (Handler.state h) <= 6 /\
  (Handler.phase (Handler.state h) = GREETING ->
   Handler.current_field_index (Handler.state h) = 0).

(** The buffer of an online client starts with the preamble and holds at
    most 21 entries. *)
Definition window (c : LLMClient.t) : Prop :=
  LLMClient.demo_mode c = false /\
  List.length (LLMClient.conversation_history c) <= 21 /\
  List.hd_error (LLMClient.conversation_history c) = Some LLMClient.system_turn.

(** The path of the file that [save_candidate_data] writes at the time
    [now], for the output directory of the chat page. *)
Definition saved_path (now : Clock) : string :=
  "candidate_data" ++ "/" ++ ("candidate_" ++ stamp now) ++ ".json".

(** The handlers of a session: a new handler, and what [reset], the
    initial greeting and the processing of a message make of one. *)
Inductive reachable {R : Runtime} : Handler.t -> Prop :=
  | reach_new : forall c, reachable (Handler.new c)
  | reach_reset : forall h, reachable h -> reachable (Handler.reset h)
  | reach_greeting : forall h greeting h',
      reachable h ->
      Handler.get_initial_greeting h = Some (greeting, h') ->
      reachable h'
  | reach_message : forall h raw r h',
      reachable h ->
      Handler.process_message raw h = Some (r, h') ->
      reachable h'.

(** A message the state machine takes as an answer: something is left of
    it after sanitation, and it carries no exit intent. *)
Definition is_answer (raw : string) : Prop :=
  sanitize_input raw <> EmptyString /\
  check_exit_intent (sanitize_input raw) = false.

End Spec.

(* ================================================================== *)
(** ** Further vocabulary *)
(* ================================================================== *)

Module Notions.
Import PyStr Regex Config Utils.

(** No tag is left in [s]: no [<] of [s] has a [>] anywhere after it. *)
Fixpoint tag_free (s : string) : bool :=
  match s with
  | EmptyString => true
  | String c t =>
      (negb (Ascii.eqb c "<") || negb (PyStr.existsb (Ascii.eqb ">"%char) t))
      && tag_free t
  end.

(** The only whitespace character of [s] is the plain space. *)
Definition plain_spaces (s : string) : bool :=
  PyStr.forallb (fun c => negb (isspace c) || Ascii.eqb c " ") s.

(** [\d+(?:\.\d+)?], the pattern of [validate_experience]. *)
Definition number_pattern : re :=
  Cat (Plus (Cls is_digit)) (Opt (Cat (Cls (one_of ".")) (Plus (Cls is_digit)))).

(** The text [validate_phone] matches: the phone without its separators. *)
Definition cleaned_phone (phone : string) : string :=
  PyStr.filter (fun c => negb (phone_separator c)) phone.

Fixpoint last_char (s : string) : ascii :=
  match s with
  | EmptyString => " "%char
  | String c EmptyString => c
  | String _ t => last_char t
  end.

Fixpoint but_last (s : string) : string :=
  match s with
  | EmptyString => EmptyString
  | String c EmptyString => EmptyString
  | String c t => String c (but_last t)
  end.

(** The key with which [__init__] tries the endpoint: present, not empty,
    and not a placeholder. *)
Definition usable_key (api_key : option string) : bool :=
  match api_key with
  | None | Some EmptyString => false
  | Some key => negb (startswith "YOUR_" key)
  end.

(** The request of the connection test of [__init__]. *)
Definition test_request : list Message := [mkMessage user "Say OK"].

(** From [c] to [c'] the mode of the client is the same, and in demo mode
    the client is the same altogether. *)
Definition client_kept (c c' : LLMClient.t) : Prop :=
  LLMClient.demo_mode c' = LLMClient.demo_mode c /\
  (LLMClient.demo_mode c = true -> c' = c).

(** The keys under which the handler stores answers. *)
Definition known_keys : list string :=
  (Handler.fields_to_collect ++ ["tech_stack"])%list.

(** The stored fields are among the known ones, and a stored email or
    phone number passes its validator. *)
Definition fields_valid (info : Dict.t) : Prop :=
  (forall k v, Dict.get k info = Some v -> In k known_keys) /\
  (forall v, Dict.get "email" info = Some v -> validate_email v = true) /\
  (forall v, Dict.get "phone" info = Some v -> validate_phone v = true).

Definition has_key (info : Dict.t) (k : string) : bool :=
  match Dict.get k info with
  | Some _ => true
  | None => false
  end.

(** The text made of the [pieces] with the characters [seps] between
    them. *)
Fixpoint glue (pieces : list string) (seps : list ascii) : string :=
  match pieces, seps with
  | piece :: rest, c :: seps' => piece ++ String c (glue rest seps')
  | piece :: _, [] => piece
  | [], _ => EmptyString
  end.


(** The first [n] of the six fields are stored. *)
Definition has_fields (n : nat) (info : Dict.t) : bool :=
  List.forallb (has_key info) (List.firstn n Handler.fields_to_collect).

(** The fields asked so far are stored: all those before the one the
    cursor has last asked for, and all six once the tech stack question
    has been reached and the session has not ended. *)
Definition collected (h : Handler.t) : Prop :=
  let s := Handler.state h in
  Handler.current_field_index s <= 6 /\
  Handler.current_field_index s <> 1 /\
  has_fields (Handler.current_field_index s - 1) (Handler.candidate_info s) = true /\
  (match Handler.phase s with
   | TECH_STACK | TECHNICAL_QUESTIONS | CONCLUSION =>
       has_fields 6 (Handler.candidate_info s) = true
   | _ => True
   end).

End Notions.

(* ================================================================== *)
(** * Properties *)
(* ================================================================== *)

(** ** Strings and regular expressions *)

Section StringFacts.
Import PyStr.

Lemma append_nil_r (s : string) : s ++ "" = s.
Proof. induction s as [|c s IH]; simpl; [reflexivity | now rewrite IH]. Qed.

Lemma append_assoc (a b c : string) : (a ++ b) ++ c = a ++ (b ++ c).
Proof. induction a as [|x a IH]; simpl; [reflexivity | now rewrite IH]. Qed.

Lemma append_eq_nil (a b : string) : a ++ b = "" -> a = "" /\ b = "".
Proof. destruct a; simpl; [auto | discriminate]. Qed.

Lemma map_append (f : ascii -> ascii) (a b : string) :
  PyStr.map f (a ++ b) = PyStr.map f a ++ PyStr.map f b.
Proof. induction a as [|x a IH]; simpl; [reflexivity | now rewrite IH]. Qed.

Lemma forallb_append (p : ascii -> bool) (a b : string) :
  PyStr.forallb p (a ++ b) = PyStr.forallb p a && PyStr.forallb p b.
Proof. induction a as [|x a IH]; simpl; [reflexivity | now rewrite IH, andb_assoc]. Qed.

Lemma existsb_append (p : ascii -> bool) (a b : string) :
  PyStr.existsb p (a ++ b) = PyStr.existsb p a || PyStr.existsb p b.
Proof. induction a as [|x a IH]; simpl; [reflexivity | now rewrite IH, orb_assoc]. Qed.

End StringFacts.

Section RegexFacts.
Import Regex.

Lemma nullable_Lang (r : re) : nullable r = true <-> Lang r "".
Proof.
  induction r as [| |p|a IHa b IHb|a IHa b IHb|a IHa]; simpl.
  - split; [discriminate | intro L; inversion L].
  - split; [constructor | reflexivity].
  - split; [discriminate | intro L; inversion L].
  - rewrite andb_true_iff, IHa, IHb. split.
    + intros [La Lb]. change "" with ("" ++ ""). now constructor.
    + intro L. inversion L; subst.
      match goal with E : _ ++ _ = "" |- _ => apply append_eq_nil in E; destruct E; subst end.
      auto.
  - rewrite orb_true_iff, IHa, IHb. split.
    + intros [L|L]; [now apply LAltL | now apply LAltR].
    + intro L. inversion L; subst; auto.
  - split; [constructor | reflexivity].
Qed.

Lemma Lang_Cat_inv (a b : re) (w : string) :
  Lang (Cat a b) w -> exists s t, w = s ++ t /\ Lang a s /\ Lang b t.
Proof. intro L. inversion L; subst. eauto. Qed.

Lemma Lang_Cat_cons (a b : re) (c : ascii) (s : string) :
  Lang (Cat a b) (String c s) ->
  (exists s1 s2, s = s1 ++ s2 /\ Lang a (String c s1) /\ Lang b s2) \/
  (Lang a "" /\ Lang b (String c s)).
Proof.
  intro L. apply Lang_Cat_inv in L. destruct L as (s1 & s2 & Heq & La & Lb).
  destruct s1 as [|x s1]; simpl in Heq.
  - right. subst. auto.
  - left. injection Heq as Hc Hs. subst. eauto.
Qed.

Lemma Lang_Star_cons (a : re) (c : ascii) (s : string) :
  Lang (Star a) (String c s) ->
  exists s1 s2, s = s1 ++ s2 /\ Lang a (String c s1) /\ Lang (Star a) s2.
Proof.
  intro L. remember (Star a) as r eqn:Hr. remember (String c s) as w eqn:Hw.
  revert Hr Hw.
  induction L as [| | | | | |a' s1 s2 La _ Ls IH]; intros Hr Hw; try discriminate.
  injection Hr as ->.
  destruct s1 as [|x s1]; simpl in Hw.
  - auto.
  - injection Hw as Hc Hs. subst. eauto.
Qed.

Lemma deriv_Lang (r : re) : forall c s, Lang (deriv c r) s <-> Lang r (String c s).
Proof.
  induction r as [| |p|a IHa b IHb|a IHa b IHb|a IHa]; intros c s; simpl.
  - split; intro L; inversion L.
  - split; intro L; inversion L.
  - destruct (p c) eqn:Hp; split; intro L.
    + inversion L; subst. now constructor.
    + inversion L; subst. constructor.
    + inversion L.
    + inversion L; subst. congruence.
  - destruct (nullable a) eqn:Hn.
    + split; intro L.
      * inversion L as [| | |x y z L1|x y z L1| |]; subst.
        -- apply Lang_Cat_inv in L1. destruct L1 as (s1 & s2 & -> & La & Lb).
           change (String c (s1 ++ s2)) with (String c s1 ++ s2).
           constructor; [now apply IHa | assumption].
        -- change (String c s) with ("" ++ String c s).
           constructor; [now apply nullable_Lang | now apply IHb].
      * apply Lang_Cat_cons in L. destruct L as [(s1 & s2 & -> & La & Lb)|[La Lb]].
        -- apply LAltL. constructor; [now apply IHa | assumption].
        -- apply LAltR. now apply IHb.
    + split; intro L.
      * apply Lang_Cat_inv in L. destruct L as (s1 & s2 & -> & La & Lb).
        change (String c (s1 ++ s2)) with (String c s1 ++ s2).
        constructor; [now apply IHa | assumption].
      * apply Lang_Cat_cons in L. destruct L as [(s1 & s2 & -> & La & Lb)|[La Lb]].
        -- constructor; [now apply IHa | assumption].
        -- apply nullable_Lang in La. congruence.
  - split; intro L.
    + inversion L; subst; [apply LAltL; now apply IHa | apply LAltR; now apply IHb].
    + inversion L; subst; [apply LAltL; now apply IHa | apply LAltR; now apply IHb].
  - split; intro L.
    + apply Lang_Cat_inv in L. destruct L as (s1 & s2 & -> & La & Lb).
      change (String c (s1 ++ s2)) with (String c s1 ++ s2).
      apply LStarS; [now apply IHa | assumption].
    + apply Lang_Star_cons in L. destruct L as (s1 & s2 & -> & La & Ls).
      constructor; [now apply IHa | assumption].
Qed.

Lemma fullmatch_Lang (s : string) : forall r, fullmatch r s = true <-> Lang r s.
Proof.
  induction s as [|c s IH]; intro r; simpl.
  - apply nullable_Lang.
  - rewrite IH. apply deriv_Lang.
Qed.

Lemma Lang_refines (r : re) (s : string) :
  Lang r s -> forall r', refines r r' -> Lang r' s.
Proof.
  induction 1 as [|p c Hp|a b s t La IHa Lb IHb|a b s La IHa|a b s Lb IHb|a|a s t La IHa Ls IHs];
    intros r' Hr; destruct r'; simpl in Hr; try contradiction.
  - constructor.
  - constructor. auto.
  - destruct Hr. constructor; auto.
  - destruct Hr. apply LAltL; auto.
  - destruct Hr. apply LAltR; auto.
  - constructor.
  - apply LStarS; [auto | apply IHs; exact Hr].
Qed.

Lemma Lang_classes_within (P : ascii -> bool) (r : re) (s : string) :
  Lang r s -> classes_within P r -> PyStr.forallb P s = true.
Proof.
  induction 1 as [|p c Hp|a b s t La IHa Lb IHb|a b s La IHa|a b s Lb IHb|a|a s t La IHa Ls IHs];
    simpl; intro Hc.
  - reflexivity.
  - rewrite (Hc c Hp). reflexivity.
  - destruct Hc. rewrite forallb_append, IHa, IHb; auto.
  - destruct Hc; auto.
  - destruct Hc; auto.
  - reflexivity.
  - rewrite forallb_append, IHa, IHs; auto.
Qed.

End RegexFacts.

(** ** [validate_email] *)

Section EmailFacts.
Import PyStr Regex Utils Spec.

Lemma lstrip_clean (s : string) :
  PyStr.forallb (fun c => negb (isspace c)) s = true -> lstrip s = s.
Proof.
  destruct s as [|c s]; simpl; [reflexivity|].
  destruct (isspace c); simpl; [discriminate | reflexivity].
Qed.

Lemma rstrip_clean (s : string) :
  PyStr.forallb (fun c => negb (isspace c)) s = true -> rstrip s = s.
Proof.
  induction s as [|c s IH]; simpl; [reflexivity|].
  intro Hs. apply andb_true_iff in Hs. destruct Hs as [Hc Hs].
  rewrite (IH Hs). destruct s; [|reflexivity].
  destruct (isspace c); [discriminate | reflexivity].
Qed.

Lemma strip_clean (s : string) :
  PyStr.forallb (fun c => negb (isspace c)) s = true -> strip s = s.
Proof.
  intro Hs. unfold strip. rewrite (lstrip_clean s Hs). now apply rstrip_clean.
Qed.

Lemma rstrip_last (x : string) :
  forall t c, rstrip x = t ++ String c "" -> isspace c = false.
Proof.
  induction x as [|a x IH]; intros t c; simpl.
  - destruct t; discriminate.
  - destruct (rstrip x) as [|b r] eqn:Hr.
    + destruct (isspace a) eqn:Ha.
      * destruct t; discriminate.
      * destruct t as [|y t]; simpl; intro E.
        -- injection E as ->. exact Ha.
        -- injection E as _ E. destruct t; discriminate.
    + destruct t as [|y t]; simpl; intro E.
      * discriminate.
      * injection E as _ E. now apply (IH t c).
Qed.

Lemma chop_newline_append (s t : string) :
  chop_newline s = Some t -> s = t ++ nl.
Proof.
  revert t. induction s as [|c s IH]; intro t; simpl.
  - discriminate.
  - destruct s as [|d s].
    + destruct (Ascii.eqb_spec c "010"%char); [|discriminate].
      intro E. injection E as <-. subst. reflexivity.
    + destruct (chop_newline (String d s)) as [t'|]; [|discriminate].
      intro E. injection E as <-. simpl. now rewrite <- (IH t' eq_refl).
Qed.

Lemma strip_no_final_newline (s : string) : chop_newline (strip s) = None.
Proof.
  destruct (chop_newline (strip s)) as [t|] eqn:E; [|reflexivity].
  apply chop_newline_append in E. unfold strip in E.
  apply rstrip_last in E. discriminate E.
Qed.

Lemma validate_email_Lang (s : string) :
  validate_email s = true <-> Lang email_pattern (strip s).
Proof.
  unfold validate_email, match_anchored.
  rewrite strip_no_final_newline, orb_false_r. apply fullmatch_Lang.
Qed.

Lemma Lang_Cls_inv (p : ascii -> bool) (s : string) :
  Lang (Cls p) s -> exists c, s = String c "" /\ p c = true.
Proof. intro L. inversion L; subst. eauto. Qed.

Lemma Lang_Star_Cls (p : ascii -> bool) (s : string) :
  Lang (Star (Cls p)) s -> PyStr.forallb p s = true.
Proof. intro L. apply (Lang_classes_within p _ _ L). simpl. auto. Qed.

Lemma one_of_single (x c : ascii) : one_of (String x "") c = true -> c = x.
Proof.
  unfold one_of. simpl. rewrite orb_false_r. intro E.
  now destruct (Ascii.eqb_spec c x).
Qed.

(** The shape of the texts the pattern of [validate_email] accepts. *)
Lemma email_pattern_shape (t : string) :
  Lang email_pattern t ->
  exists l d lab,
    t = l ++ "@" ++ d ++ "." ++ lab /\
    PyStr.forallb is_letter lab = true /\ 2 <= String.length lab.
Proof.
  intro L. unfold email_pattern, AtLeast, Plus in L. simpl Times in L.
  apply Lang_Cat_inv in L. destruct L as (l & r1 & -> & _ & L).
  apply Lang_Cat_inv in L. destruct L as (a & r2 & -> & La & L).
  apply Lang_Cat_inv in L. destruct L as (d & r3 & -> & _ & L).
  apply Lang_Cat_inv in L. destruct L as (o & r4 & -> & Lo & L).
  apply Lang_Cat_inv in L. destruct L as (two & more & -> & L2 & Lm).
  apply Lang_Cat_inv in L2. destruct L2 as (c1 & r5 & -> & L1 & L2).
  apply Lang_Cat_inv in L2. destruct L2 as (c2 & r6 & -> & L2 & L3).
  inversion L3; subst.
  apply Lang_Cls_inv in La. destruct La as (x & -> & Hx). apply one_of_single in Hx. subst x.
  apply Lang_Cls_inv in Lo. destruct Lo as (y & -> & Hy). apply one_of_single in Hy. subst y.
  apply Lang_Cls_inv in L1. destruct L1 as (x1 & -> & H1).
  apply Lang_Cls_inv in L2. destruct L2 as (x2 & -> & H2).
  apply Lang_Star_Cls in Lm.
  exists l, d, (String x1 (String x2 more)). simpl. rewrite H1, H2, Lm.
  repeat split. lia.
Qed.

Lemma final_label_letters (lab : string) :
  PyStr.forallb is_letter lab = true -> final_label lab = None.
Proof.
  induction lab as [|c lab IH]; simpl; [reflexivity|].
  intro H. apply andb_true_iff in H. destruct H as [Hc Hl].
  rewrite (IH Hl). destruct (Ascii.eqb_spec c "."); [|reflexivity].
  subst c. discriminate Hc.
Qed.

Lemma final_label_append (pre lab : string) :
  final_label lab = None -> final_label (pre ++ String "." lab) = Some lab.
Proof.
  intro Hl. induction pre as [|c pre IH]; simpl.
  - now rewrite Hl.
  - now rewrite IH.
Qed.

Lemma existsb_lstrip (p : ascii -> bool) (s : string) :
  PyStr.existsb p (lstrip s) = true -> PyStr.existsb p s = true.
Proof.
  induction s as [|c s IH]; simpl; [auto|].
  destruct (isspace c); [|auto]. intro H. rewrite (IH H). apply orb_true_r.
Qed.

Lemma existsb_rstrip (p : ascii -> bool) (s : string) :
  PyStr.existsb p (rstrip s) = true -> PyStr.existsb p s = true.
Proof.
  induction s as [|c s IH]; simpl; [auto|].
  destruct (rstrip s) as [|b r].
  - destruct (isspace c); simpl; [discriminate|].
    rewrite orb_false_r. intros ->. reflexivity.
  - simpl. simpl in IH. intro H. apply orb_true_iff in H. destruct H as [->|H]; [reflexivity|].
    rewrite (IH H). apply orb_true_r.
Qed.

Lemma word_local_class (c : ascii) :
  word_class c || one_of ".+-" c = true -> email_local_class c = true.
Proof.
  unfold word_class, email_local_class, one_of. simpl.
  destruct (is_letter c), (is_digit c), (Ascii.eqb c "_"), (Ascii.eqb c "."),
    (Ascii.eqb c "+"), (Ascii.eqb c "-"), (Ascii.eqb c "%"); simpl; auto.
Qed.

Lemma narrowed_refines : refines narrowed_email_pattern email_pattern.
Proof.
  unfold narrowed_email_pattern, email_pattern, AtLeast, Plus. simpl.
  repeat split; auto using word_local_class.
Qed.

Lemma letter_not_space (c : ascii) : is_letter c = true -> isspace c = false.
Proof.
  unfold is_letter, is_upper_ascii, is_lower_ascii, isspace, in_range.
  rewrite !orb_true_iff, !andb_true_iff, !N.leb_le.
  intro H.
  rewrite !orb_false_iff, !andb_false_iff, !N.leb_gt, !N.eqb_neq. lia.
Qed.

Lemma digit_not_space (c : ascii) : is_digit c = true -> isspace c = false.
Proof.
  unfold is_digit, isspace, in_range.
  rewrite !andb_true_iff, !N.leb_le.
  intro H.
  rewrite !orb_false_iff, !andb_false_iff, !N.leb_gt, !N.eqb_neq. lia.
Qed.

Lemma one_of_not_space (chars : string) (c : ascii) :
  PyStr.forallb (fun x => negb (isspace x)) chars = true ->
  one_of chars c = true -> isspace c = false.
Proof.
  unfold one_of. induction chars as [|x chars IH]; simpl; [discriminate|].
  intros H E. apply andb_true_iff in H. destruct H as [Hx Hc].
  apply orb_true_iff in E. destruct E as [E|E]; [|auto].
  destruct (Ascii.eqb_spec c x); [|discriminate]. subst.
  now destruct (isspace x).
Qed.

Lemma word_not_space (c : ascii) : word_class c = true -> isspace c = false.
Proof.
  unfold word_class. intro H.
  destruct (is_letter c) eqn:Hl; [now apply letter_not_space|].
  destruct (is_digit c) eqn:Hd; [now apply digit_not_space|].
  now apply (one_of_not_space "_").
Qed.

Lemma narrowed_no_space :
  classes_within (fun c => negb (isspace c)) narrowed_email_pattern.
Proof.
  assert (A : forall chars c,
             PyStr.forallb (fun x => negb (isspace x)) chars = true ->
             word_class c || one_of chars c = true -> negb (isspace c) = true).
  { intros chars c Hchars H. apply negb_true_iff.
    destruct (word_class c) eqn:Hw; [now apply word_not_space|].
    now apply (one_of_not_space chars). }
  assert (B : forall c, is_letter c || is_digit c || one_of ".-" c = true ->
                        negb (isspace c) = true).
  { intros c H. apply negb_true_iff.
    destruct (is_letter c) eqn:Hl; [now apply letter_not_space|].
    destruct (is_digit c) eqn:Hd; [now apply digit_not_space|].
    now apply (one_of_not_space ".-"). }
  assert (C : forall chars c,
             PyStr.forallb (fun x => negb (isspace x)) chars = true ->
             one_of chars c = true -> negb (isspace c) = true).
  { intros chars c Hchars H. apply negb_true_iff. now apply (one_of_not_space chars). }
  assert (D : forall c, is_letter c = true -> negb (isspace c) = true).
  { intros c H. apply negb_true_iff. now apply letter_not_space. }
  unfold narrowed_email_pattern, AtLeast, Plus. simpl.
  repeat split; intros c Hc;
    first [ exact (D c Hc) | exact (B c Hc)
          | exact (A ".+-" c eq_refl Hc)
          | exact (C "@" c eq_refl Hc) | exact (C "." c eq_refl Hc) ].
Qed.

End EmailFacts.

Section EmailValidation.
Import PyStr Regex Utils Spec.

(** C5, as stated, fails: the text a@b_c.com matches the stated pattern
    [^[\w.+-]+@[\w.-]+\.[A-Za-z]{2,}$], its domain part holding an underscore,
    and [validate_email] rejects it; and a text whose final label is
    followed by a space has no final label made of letters, and
    [validate_email], which strips the text first, accepts it. *)
Lemma validate_email_rejects_stated_match :
  (fullmatch stated_email_pattern "a@b_c.com" = true /\
   validate_email "a@b_c.com" = false) /\
  (has_final_label "a@b.com " = false /\
   validate_email "a@b.com " = true).
Proof. repeat split; vm_compute; reflexivity. Qed.

(** C5, amended: [validate_email] accepts every text matching
    [^[\w.+-]+@[A-Za-z0-9.-]+\.[A-Za-z]{2,}$] (the stated pattern with the
    underscore left out of the domain part, [\w] being the ASCII word
    characters); it rejects every text without an at sign, and every text
    which, once stripped of surrounding whitespace, does not end with a dot
    followed by at least two letters. *)
Theorem validate_email_sound_and_strict :
  (forall s, fullmatch narrowed_email_pattern s = true -> validate_email s = true) /\
  (forall s, has_at_sign s = false -> validate_email s = false) /\
  (forall s, has_final_label (strip s) = false -> validate_email s = false).
Proof.
  split; [|split].
  - intros s Hs. apply fullmatch_Lang in Hs.
    apply validate_email_Lang.
    rewrite (strip_clean s (Lang_classes_within _ _ _ Hs narrowed_no_space)).
    exact (Lang_refines _ _ Hs _ narrowed_refines).
  - intros s Hs. destruct (validate_email s) eqn:Hv; [|reflexivity].
    apply validate_email_Lang, email_pattern_shape in Hv.
    destruct Hv as (l & d & lab & Heq & _).
    assert (Hat : PyStr.existsb (Ascii.eqb "@"%char) (strip s) = true).
    { rewrite Heq, existsb_append. simpl. apply orb_true_r. }
    unfold strip in Hat. apply existsb_rstrip, existsb_lstrip in Hat.
    unfold has_at_sign in Hs. congruence.
  - intros s Hs. destruct (validate_email s) eqn:Hv; [|reflexivity].
    apply validate_email_Lang, email_pattern_shape in Hv.
    destruct Hv as (l & d & lab & Heq & Hlab & Hlen).
    unfold has_final_label in Hs.
    replace (l ++ "@" ++ d ++ "." ++ lab) with ((l ++ "@" ++ d) ++ String "." lab) in Heq
      by (now rewrite !append_assoc).
    rewrite Heq, (final_label_append _ lab (final_label_letters lab Hlab)), Hlab in Hs.
    apply Nat.leb_le in Hlen. rewrite Hlen in Hs. discriminate Hs.
Qed.

(** The three parts of the amended C5 on texts: an address with a plus
    sign is accepted, a text without an at sign and a text with a final
    label of one letter are rejected. *)
Lemma validate_email_sound_and_strict_witness :
  validate_email "john.doe+hr@mail.example.org" = true /\
  validate_email "john.example.org" = false /\
  validate_email " john@example.c " = false.
Proof.
  split; [|split].
  - apply (proj1 validate_email_sound_and_strict). vm_compute. reflexivity.
  - apply (proj1 (proj2 validate_email_sound_and_strict)). vm_compute. reflexivity.
  - apply (proj2 (proj2 validate_email_sound_and_strict)). vm_compute. reflexivity.
Defined.

End EmailValidation.

(** ** Substrings and [strip] *)

Section SubstringFacts.
Import PyStr Spec.

Lemma startswith_prefix (p s : string) :
  startswith p s = true <-> exists post, s = p ++ post.
Proof.
  revert s. induction p as [|a p IH]; intro s; simpl.
  - split; [eauto | reflexivity].
  - destruct s as [|b s].
    + split; [discriminate | intros [post E]; discriminate E].
    + rewrite andb_true_iff, IH. split.
      * intros [Hab [post ->]]. destruct (Ascii.eqb_spec a b); [|discriminate].
        subst. eauto.
      * intros [post E]. injection E as -> ->. rewrite Ascii.eqb_refl. eauto.
Qed.

Lemma contains_Substring (k s : string) :
  contains k s = true <-> Substring k s.
Proof.
  unfold Substring. induction s as [|c s IH]; simpl.
  - rewrite orb_false_r, startswith_prefix. split.
    + intros [post E]. exists "", post. exact E.
    + intros (pre & post & E). destruct pre; [eauto | discriminate E].
  - rewrite orb_true_iff, startswith_prefix, IH. split.
    + intros [[post E]|(pre & post & E)].
      * exists "", post. exact E.
      * exists (String c pre), post. simpl. now rewrite E.
    + intros (pre & post & E). destruct pre as [|x pre]; simpl in E.
      * left. eauto.
      * right. injection E as _ E. eauto.
Qed.

Ltac reassoc := repeat progress (simpl; rewrite ?append_assoc); try reflexivity.

Lemma lstrip_before (pre : string) (a : ascii) (rest : string) :
  isspace a = false ->
  exists pre', lstrip (pre ++ String a rest) = pre' ++ String a rest.
Proof.
  intro Ha. induction pre as [|c pre IH]; simpl.
  - rewrite Ha. exists "". reflexivity.
  - destruct (isspace c); [exact IH|]. exists (String c pre). reflexivity.
Qed.

Lemma rstrip_after (x u : string) :
  rstrip u <> "" -> rstrip (x ++ u) = x ++ rstrip u.
Proof.
  intro Hu. induction x as [|c x IH]; simpl; [reflexivity|].
  rewrite IH. destruct (x ++ rstrip u) eqn:E; [|reflexivity].
  apply append_eq_nil in E. tauto.
Qed.

Lemma rstrip_cons_clean (z : ascii) (post : string) :
  isspace z = false -> rstrip (String z post) = String z (rstrip post).
Proof. intro Hz. simpl. destruct (rstrip post); [now rewrite Hz | reflexivity]. Qed.

(** A keyword that neither starts nor ends with whitespace survives
    [strip]. *)
Lemma Substring_strip (a z : ascii) (mid s : string) :
  isspace a = false -> isspace z = false ->
  Substring (String a (mid ++ String z "")) s ->
  Substring (String a (mid ++ String z "")) (strip s).
Proof.
  intros Ha Hz (pre & post & ->). unfold strip. simpl.
  destruct (lstrip_before pre a ((mid ++ String z "") ++ post) Ha) as [pre' ->].
  exists pre', (rstrip post).
  replace (pre' ++ String a ((mid ++ String z "") ++ post))
    with ((pre' ++ String a mid) ++ String z post)
    by reassoc.
  rewrite rstrip_after.
  - rewrite (rstrip_cons_clean z post Hz). reassoc.
  - rewrite (rstrip_cons_clean z post Hz). discriminate.
Qed.

Lemma Substring_lower (k s : string) :
  Substring k s -> Substring (lower k) (lower s).
Proof.
  intros (pre & post & ->). exists (lower pre), (lower post).
  unfold lower. now rewrite !map_append.
Qed.

End SubstringFacts.

Section ExitIntent.
Import PyStr Config Utils Spec.

Lemma check_exit_intent_scan (m : string) :
  check_exit_intent m = true <->
  exists k, In k EXIT_KEYWORDS /\ Substring k (strip (lower m)).
Proof.
  unfold check_exit_intent. rewrite List.existsb_exists.
  split; intros (k & Hin & Hk); exists k; split; auto; now apply contains_Substring.
Qed.

End ExitIntent.

(** ** The dialogue state machine *)

(** Unfold the methods of the handler down to the calls of the client and
    of the validators, and evaluate what is closed. *)
Ltac run_handler :=
  cbv beta iota zeta delta
    [Handler.process_message Handler._handle_greeting Handler._handle_info_gathering
     Handler.next_field_or_tech_stack Handler._handle_tech_stack
     Handler._handle_technical_questions Handler._handle_conclusion Handler._handle_exit
     Handler._handle_fallback Handler._generate_conclusion
     Handler._generate_tech_stack_prompt Handler._generate_field_prompt
     Handler.get_initial_greeting
     Handler.bind Handler.ret Handler.raise Handler.read Handler.update Handler.ask
     Handler.set_phase Handler.store Handler.set_current_field_index
     Handler.set_tech_stack_parsed Handler.set_questions Handler._add_to_history
     Handler.llm Handler.state Handler.phase Handler.candidate_info
     Handler.current_field_index Handler.conversation_history
     Handler.tech_stack_parsed Handler.technical_questions_asked
     Handler.questions_generated Handler.awaiting_validation];
  cbn -[String.append PyStr.join PyStr.lower PyStr.contains
        Utils.validate_email Utils.validate_phone Utils.validate_experience
        Utils.parse_tech_stack Utils.check_exit_intent Utils.sanitize_input
        Utils.format_candidate_summary Utils.format_conversation_for_llm
        LLMClient.generate_response LLMClient.generate_conclusion
        LLMClient.generate_technical_questions LLMClient.generate_greeting
        LLMClient.generate_with_history
        Handler._generate_validation_response Handler.evaluation_prompt
        Handler.tech_stack_reprompt Handler.conclusion_indicators
        Dict.get_default Dict.set PyStr.last_n PyStr.replace_char
        List.existsb].

(** Name the answer and the next state of a call of the client. *)
Ltac ask_llm :=
  match goal with
  | |- context [LLMClient.generate_conclusion ?a ?b] =>
      destruct (LLMClient.generate_conclusion a b) as [? ?]
  | |- context [LLMClient.generate_technical_questions ?a ?b ?c ?d] =>
      destruct (LLMClient.generate_technical_questions a b c d) as [? ?]
  | |- context [LLMClient.generate_with_history ?a ?b ?c] =>
      destruct (LLMClient.generate_with_history a b c) as [? ?]
  | |- context [LLMClient.generate_greeting ?a] =>
      destruct (LLMClient.generate_greeting a) as [? ?]
  | |- context [LLMClient.generate_response ?a ?b] =>
      destruct (LLMClient.generate_response a b) as [? ?]
  end.

Ltac settle :=
  eexists; eexists; unfold Spec.session_invariant, Spec.forward_step;
  cbv beta iota zeta delta
    [Handler.phase Handler.state Handler.current_field_index Handler.phase_rank];
  repeat split; solve [ reflexivity | lia | discriminate | auto 6 with arith ].

(** The start of every call on an answer: the text is recorded and the
    handler of the current phase is entered. *)
Ltac enter_phase h raw Hans c m :=
  let Hne := fresh "Hne" in
  let Hexit := fresh "Hexit" in
  let Hs := fresh "Hs" in
  destruct Hans as [Hne Hexit];
  unfold Handler.process_message;
  destruct (Utils.sanitize_input raw) as [|c m] eqn:Hs; [congruence|];
  destruct h as [? [? ? ? ? ? ? ? ?]];
  cbv beta iota zeta delta
    [Handler.phase Handler.state Handler.current_field_index Handler.llm
     Handler.candidate_info Handler.conversation_history] in *;
  subst; run_handler; rewrite Hexit; run_handler.

Section StateMachine.
Import PyStr Config Utils Spec Handler.
Context {R : Runtime}.

(** A message with exit intent ends the session, whatever the phase, and
    leaves the answers and the cursor as they are. *)
Lemma exit_ends_session (h : Handler.t) (raw : string) :
  check_exit_intent (sanitize_input raw) = true ->
  exists reply h',
    process_message raw h = Some ((reply, true), h') /\
    phase (state h') = ENDED /\
    candidate_info (state h') = candidate_info (state h) /\
    current_field_index (state h') = current_field_index (state h).
Proof.
  intro Hexit.
  unfold process_message.
  destruct (sanitize_input raw) as [|c m] eqn:Hs.
  - discriminate Hexit.
  - destruct h as [c0 s]. destruct s.
    run_handler. rewrite Hexit. run_handler. ask_llm.
    eexists; eexists. repeat split.
Qed.

(** One call: it returns, keeps the invariant, and moves the phase forward
    in the allowed way. *)
Lemma step_forward (h : Handler.t) (raw : string) :
  session_invariant h ->
  exists r h',
    process_message raw h = Some (r, h') /\
    session_invariant h' /\
    phase_rank (phase (state h)) <= phase_rank (phase (state h')) /\
    forward_step (phase (state h)) (phase (state h'))
                 (check_exit_intent (sanitize_input raw)).
Proof.
  intros [Hle Hg].
  destruct (check_exit_intent (sanitize_input raw)) eqn:Hexit.
  - destruct (exit_ends_session h raw Hexit) as (reply & h' & Hrun & Hp & _ & Hi).
    exists (reply, true), h'. unfold session_invariant, forward_step.
    rewrite Hrun, Hp, Hi. repeat split; auto.
    + discriminate.
    + destruct (phase (state h)); simpl; lia.
  - unfold process_message.
    destruct (sanitize_input raw) as [|c m] eqn:Hs.
    + exists (empty_reprompt, false), h. unfold forward_step, session_invariant. auto.
    + destruct h as [c0 s]. destruct s as [p info index hist parsed asked qs aw].
      cbv beta iota zeta delta [phase state current_field_index] in Hle, Hg.
      run_handler. rewrite Hexit.
      destruct p; run_handler.
      * rewrite (Hg eq_refl). run_handler. ask_llm. run_handler. settle.
      * destruct index as [|[|[|[|[|[|[|n]]]]]]]; [ | | | | | | | lia ]; run_handler.
        -- ask_llm. settle.
        -- ask_llm. settle.
        -- destruct (validate_email (String c m)); run_handler; try ask_llm; settle.
        -- destruct (validate_phone (String c m)); run_handler; try ask_llm; settle.
        -- destruct (validate_experience (String c m)); run_handler; ask_llm; settle.
        -- ask_llm. settle.
        -- settle.
      * destruct (parse_tech_stack (String c m)); run_handler.
        -- settle.
        -- ask_llm. settle.
      * ask_llm.
        destruct (List.existsb _ conclusion_indicators); run_handler.
        -- ask_llm. settle.
        -- settle.
      * ask_llm. settle.
      * ask_llm. settle.
Qed.

Lemma trace_forward (messages : list string) (h : Handler.t) :
  session_invariant h ->
  exists phases h',
    run_session messages h = Some (phases, h') /\
    forward_trace (phase (state h)) messages phases.
Proof.
  revert h. induction messages as [|m messages IH]; intros h Hinv; simpl.
  - exists [], h. auto.
  - destruct (step_forward h m Hinv) as (r & h1 & Hrun & Hinv1 & Hle & Hstep).
    destruct (IH h1 Hinv1) as (phases & h2 & Hrest & Htrace).
    rewrite Hrun, Hrest. exists (phase (state h1) :: phases), h2. simpl. auto.
Qed.

(** Every handler of a session keeps the cursor within the six fields. *)
Lemma reachable_invariant (h : Handler.t) : reachable h -> session_invariant h.
Proof.
  induction 1 as [c|h Hr IH|h greeting h' Hr IH Hg|h raw r h' Hr IH Hrun].
  - split; [simpl; lia | reflexivity].
  - split; [simpl; lia | reflexivity].
  - destruct IH as [Hle _]. destruct h as [c0 [p info index hist parsed asked qs aw]].
    revert Hg. run_handler. ask_llm. intro Hg. injection Hg as _ <-.
    split; [exact Hle | discriminate].
  - destruct (step_forward h raw IH) as (r1 & h1 & Hrun1 & Hinv1 & _).
    rewrite Hrun in Hrun1. injection Hrun1 as _ <-. exact Hinv1.
Qed.

(** C7: over every sequence of calls of [process_message] on one session,
    no call raises, the phase never moves backward in the order greeting,
    info_gathering, tech_stack, technical_questions, conclusion and ended,
    and each call leaves it in place, moves it to the next phase, or (when
    the message has exit intent) takes it to ended from wherever it is. *)
Theorem phase_moves_forward (messages : list string) (h : Handler.t) :
  reachable h ->
  exists phases h',
    run_session messages h = Some (phases, h') /\
    forward_trace (phase (state h)) messages phases.
Proof.
  intro Hr. apply trace_forward, reachable_invariant, Hr.
Qed.

(** C8, amended: in the tech_stack phase, a message that is taken as an
    answer is stored as the raw tech stack text, and its parsed list is
    stored, before the list is looked at; when the list is empty the reply
    is the re-prompt and the phase stays tech_stack, otherwise the phase
    moves to technical_questions. *)
Theorem tech_stack_stored_in_both_branches (h : Handler.t) (raw : string) :
  phase (state h) = TECH_STACK ->
  is_answer raw ->
  exists reply h',
    process_message raw h = Some ((reply, false), h') /\
    candidate_info (state h') =
      Dict.set "tech_stack" (sanitize_input raw) (candidate_info (state h)) /\
    tech_stack_parsed (state h') = parse_tech_stack (sanitize_input raw) /\
    (parse_tech_stack (sanitize_input raw) = [] ->
     reply = tech_stack_reprompt /\ phase (state h') = TECH_STACK) /\
    (parse_tech_stack (sanitize_input raw) <> [] ->
     phase (state h') = TECHNICAL_QUESTIONS).
Proof.
  intros Hp Hans. enter_phase h raw Hans c m.
  destruct (parse_tech_stack (String c m)) as [|tech techs] eqn:Hparse; run_handler.
  - eexists; eexists. repeat split; congruence.
  - ask_llm. eexists; eexists. repeat split; intros; congruence.
Qed.

(** C2, amended: in the technical_questions phase, a message that is taken
    as an answer (something is left after sanitation and it carries no
    exit intent) and whose lower-cased text contains a closing phrase moves
    the phase to conclusion; the evaluative reply is generated first and
    dropped, and the reply returned, with ended false, is the conclusion
    generated after it. *)
Theorem closing_phrase_concludes (h : Handler.t) (raw : string) :
  phase (state h) = TECHNICAL_QUESTIONS ->
  is_answer raw ->
  List.existsb (fun phrase => contains phrase (lower (sanitize_input raw)))
               conclusion_indicators = true ->
  let m := sanitize_input raw in
  let heard := (conversation_history (state h) ++ [mkMessage user m])%list in
  let prompt := evaluation_prompt (format_conversation_for_llm (last_n 6 heard)) m in
  let client := snd (LLMClient.generate_response prompt (llm h)) in
  let summary := format_candidate_summary (candidate_info (state h)) in
  let reply := fst (LLMClient.generate_conclusion summary client) in
  exists h',
    process_message raw h = Some ((reply, false), h') /\
    phase (state h') = CONCLUSION /\
    llm h' = snd (LLMClient.generate_conclusion summary client) /\
    conversation_history (state h') = (heard ++ [mkMessage assistant reply])%list.
Proof.
  intros Hp Hans Hclose. enter_phase h raw Hans c m.
  rewrite Hclose.
  destruct (LLMClient.generate_response _ _) as [evaluation c1].
  run_handler.
  destruct (LLMClient.generate_conclusion _ c1) as [reply c2].
  eexists. repeat split.
Qed.

(** An answer given before the last field keeps the phase and moves the
    cursor on. *)
Lemma info_answer_step (h : Handler.t) (raw : string) :
  phase (state h) = INFO_GATHERING ->
  is_answer raw ->
  current_field_index (state h) <= 5 ->
  (current_field_index (state h) = 2 -> validate_email (sanitize_input raw) = true) ->
  (current_field_index (state h) = 3 -> validate_phone (sanitize_input raw) = true) ->
  exists r h',
    process_message raw h = Some (r, h') /\
    phase (state h') = INFO_GATHERING /\
    current_field_index (state h') = Nat.max 2 (S (current_field_index (state h))).
Proof.
  intros Hp Hans Hle He Hph. enter_phase h raw Hans c m.
  match goal with i : nat |- _ =>
    destruct i as [|[|[|[|[|[|n]]]]]]; [ | | | | | | lia ] end; run_handler.
  - ask_llm. eexists; eexists; repeat split.
  - ask_llm. eexists; eexists; repeat split.
  - rewrite (He eq_refl). run_handler. ask_llm. eexists; eexists; repeat split.
  - rewrite (Hph eq_refl). run_handler. ask_llm. eexists; eexists; repeat split.
  - destruct (validate_experience (String c m)); run_handler; ask_llm;
      eexists; eexists; repeat split.
  - ask_llm. eexists; eexists; repeat split.
Qed.

(** The answer to the sixth question is stored as the location and the
    phase moves to tech_stack. *)
Lemma info_last_step (h : Handler.t) (raw : string) :
  phase (state h) = INFO_GATHERING ->
  is_answer raw ->
  current_field_index (state h) = 6 ->
  exists r h',
    process_message raw h = Some (r, h') /\
    phase (state h') = TECH_STACK /\
    candidate_info (state h') =
      Dict.set "current_location" (sanitize_input raw) (candidate_info (state h)).
Proof.
  intros Hp Hans Hi. enter_phase h raw Hans c m.
  eexists; eexists; repeat split.
Qed.

Lemma dict_get_set (k v : string) (d : Dict.t) : Dict.get k (Dict.set k v d) = Some v.
Proof.
  induction d as [|[k' v'] d IH]; simpl.
  - now rewrite String.eqb_refl.
  - destruct (String.eqb k' k) eqn:E; simpl.
    + now rewrite String.eqb_refl.
    + now rewrite E.
Qed.

(** C1: from a session in info_gathering with the cursor on the first
    field, six answers (each one taken as an answer, the second a valid
    email, the third a valid phone number) keep the phase info_gathering
    after each of the first five and move it to tech_stack on the sixth,
    which is stored as current_location; and at the email step a text that
    fails [validate_email] is answered by the validation retry, with the
    phase, the cursor and the stored fields unchanged, both in
    [_handle_info_gathering] and through [process_message]. *)
Theorem six_answers_then_tech_stack :
  (forall (h : Handler.t) (name email phone experience positions location : string),
     phase (state h) = INFO_GATHERING ->
     current_field_index (state h) = 0 ->
     is_answer name -> is_answer email -> is_answer phone ->
     is_answer experience -> is_answer positions -> is_answer location ->
     validate_email (sanitize_input email) = true ->
     validate_phone (sanitize_input phone) = true ->
     exists h',
       run_session [name; email; phone; experience; positions; location] h =
         Some ([INFO_GATHERING; INFO_GATHERING; INFO_GATHERING; INFO_GATHERING;
                INFO_GATHERING; TECH_STACK], h') /\
       Dict.get "current_location" (candidate_info (state h')) =
         Some (sanitize_input location)) /\
  (forall (h : Handler.t) (message : string),
     current_field_index (state h) = 2 ->
     validate_email message = false ->
     exists h',
       _handle_info_gathering message h =
         Some ((_generate_validation_response "email" message, false), h') /\
       phase (state h') = phase (state h) /\
       current_field_index (state h') = 2 /\
       candidate_info (state h') = candidate_info (state h)) /\
  (forall (h : Handler.t) (raw : string),
     phase (state h) = INFO_GATHERING ->
     current_field_index (state h) = 2 ->
     is_answer raw ->
     validate_email (sanitize_input raw) = false ->
     exists h',
       process_message raw h =
         Some ((_generate_validation_response "email" (sanitize_input raw), false), h') /\
       phase (state h') = INFO_GATHERING /\
       current_field_index (state h') = 2 /\
       candidate_info (state h') = candidate_info (state h)).
Proof.
  split; [|split].
  - intros h m1 m2 m3 m4 m5 m6 Hp Hi A1 A2 A3 A4 A5 A6 Hemail Hphone.
    destruct (info_answer_step h m1 Hp A1) as (r1 & h1 & E1 & P1 & I1);
      [lia | intro; lia | intro; lia |].
    rewrite Hi in I1. simpl in I1.
    destruct (info_answer_step h1 m2 P1 A2) as (r2 & h2 & E2 & P2 & I2);
      [lia | auto | intro; lia |].
    rewrite I1 in I2. simpl in I2.
    destruct (info_answer_step h2 m3 P2 A3) as (r3 & h3 & E3 & P3 & I3);
      [lia | intro; lia | auto |].
    rewrite I2 in I3. simpl in I3.
    destruct (info_answer_step h3 m4 P3 A4) as (r4 & h4 & E4 & P4 & I4);
      [lia | intro; lia | intro; lia |].
    rewrite I3 in I4. simpl in I4.
    destruct (info_answer_step h4 m5 P4 A5) as (r5 & h5 & E5 & P5 & I5);
      [lia | intro; lia | intro; lia |].
    rewrite I4 in I5. simpl in I5.
    destruct (info_last_step h5 m6 P5 A6 I5) as (r6 & h6 & E6 & P6 & C6).
    exists h6. unfold run_session.
    rewrite E1, E2, E3, E4, E5, E6, P1, P2, P3, P4, P5, P6, C6.
    split; [reflexivity | apply dict_get_set].
  - intros [c0 [p info index hist parsed asked qs aw]] message Hi Hbad.
    cbv beta iota zeta delta [state current_field_index] in Hi. subst index.
    run_handler. rewrite Hbad. run_handler.
    eexists. repeat split.
  - intros h raw Hp Hi Hans Hbad. enter_phase h raw Hans c m.
    rewrite Hbad. run_handler.
    eexists. repeat split.
Qed.

End StateMachine.

Section ExitIntentClaim.
Import PyStr Config Utils Spec Handler.

(** C10: [check_exit_intent] holds exactly when the lower-cased, stripped
    message contains one of the exit keywords as a substring; this includes
    occurrences inside a word, so every message containing end (as attended
    and weekend do) or thanks has exit intent, and a message with exit
    intent ends the session from any phase. *)
Theorem check_exit_intent_is_substring_scan :
  (forall m, check_exit_intent m = true <->
             exists k, In k EXIT_KEYWORDS /\ Substring k (strip (lower m))) /\
  (forall m, Substring "end" m \/ Substring "thanks" m -> check_exit_intent m = true) /\
  check_exit_intent "attended" = true /\
  check_exit_intent "weekend" = true /\
  (forall (R : Runtime) (h : Handler.t) (raw : string),
     check_exit_intent (sanitize_input raw) = true ->
     exists reply h',
       process_message raw h = Some ((reply, true), h') /\
       phase (state h') = ENDED).
Proof.
  split; [exact check_exit_intent_scan|].
  split; [|split; [reflexivity|split; [reflexivity|]]].
  - intros m [Hm|Hm]; apply check_exit_intent_scan.
    + exists "end". split; [simpl; tauto|].
      apply (Substring_strip "e" "d" "n"); [reflexivity..|].
      exact (Substring_lower "end" m Hm).
    + exists "thanks". split; [simpl; tauto|].
      apply (Substring_strip "t" "s" "hank"); [reflexivity..|].
      exact (Substring_lower "thanks" m Hm).
  - intros R h raw Hexit.
    destruct (exit_ends_session h raw Hexit) as (reply & h' & Hrun & Hp & _).
    eauto.
Qed.

End ExitIntentClaim.

Section StateMachineExamples.
Import PyStr Config Utils Spec Handler Examples.

Ltac is_an_answer := split; [vm_compute; discriminate | vm_compute; reflexivity].

(** C7 on a whole session, from its creation to after its end. *)
Lemma phase_moves_forward_witness :
  exists phases h',
    run_session (R := unreachable)
      [ "Ann Lee"; "ann@x.org"; "+1 234 567 8901"; "3.5 years"; "Python developer";
        "Paris"; "x"; "Python, Django, PostgreSQL"; "I would use a dict";
        "i am done"; "ok"; "bye"; "more" ]
      (Handler.new demo_client) = Some (phases, h') /\
    forward_trace GREETING
      [ "Ann Lee"; "ann@x.org"; "+1 234 567 8901"; "3.5 years"; "Python developer";
        "Paris"; "x"; "Python, Django, PostgreSQL"; "I would use a dict";
        "i am done"; "ok"; "bye"; "more" ]
      phases.
Proof.
  exact (phase_moves_forward (R := unreachable) _ (Handler.new demo_client)
           (reach_new demo_client)).
Defined.

(** C8, as stated, fails: in the tech_stack phase the message x yields no
    technology, the reply is the re-prompt and the phase is unchanged, and
    yet x is now stored as the tech stack text, where nothing was stored
    before. *)
Lemma tech_stack_reprompt_stores_text :
  parse_tech_stack (R := unreachable) "x" = [] /\
  Dict.get "tech_stack" (candidate_info (state (handler_at TECH_STACK six_fields 6))) = None /\
  exists h',
    process_message (R := unreachable) "x" (handler_at TECH_STACK six_fields 6) =
      Some ((tech_stack_reprompt, false), h') /\
    phase (state h') = TECH_STACK /\
    Dict.get "tech_stack" (candidate_info (state h')) = Some "x".
Proof.
  split; [reflexivity|]. split; [reflexivity|].
  eexists. split; [vm_compute; reflexivity|]. split; reflexivity.
Qed.

(** The amended C8 on the message x, which names no technology. *)
Lemma tech_stack_stored_in_both_branches_witness :
  exists reply h',
    process_message (R := unreachable) "x" (handler_at TECH_STACK six_fields 6) =
      Some ((reply, false), h') /\
    candidate_info (state h') =
      Dict.set "tech_stack" (sanitize_input "x") six_fields /\
    tech_stack_parsed (state h') = parse_tech_stack (R := unreachable) (sanitize_input "x") /\
    (parse_tech_stack (R := unreachable) (sanitize_input "x") = [] ->
     reply = tech_stack_reprompt /\ phase (state h') = TECH_STACK) /\
    (parse_tech_stack (R := unreachable) (sanitize_input "x") <> [] ->
     phase (state h') = TECHNICAL_QUESTIONS).
Proof.
  apply (tech_stack_stored_in_both_branches (R := unreachable)
           (handler_at TECH_STACK six_fields 6) "x").
  - reflexivity.
  - is_an_answer.
Defined.

(** C2, as stated, fails: in the technical_questions phase the closing
    phrase that's all is also an exit keyword, so the session ends, with
    ended true, instead of moving to conclusion. *)
Lemma closing_phrase_that_ends_session :
  List.existsb (fun phrase => contains phrase (lower (sanitize_input "that's all")))
               conclusion_indicators = true /\
  exists reply h',
    process_message (R := unreachable) "that's all"
      (handler_at TECHNICAL_QUESTIONS six_fields 6) = Some ((reply, true), h') /\
    phase (state h') = ENDED.
Proof.
  split; [reflexivity|].
  eexists; eexists. split; [vm_compute; reflexivity | reflexivity].
Qed.

(** The amended C2 on the message i am done, in demo mode. *)
Lemma closing_phrase_concludes_witness :
  exists h',
    process_message (R := unreachable) "i am done"
      (handler_at TECHNICAL_QUESTIONS six_fields 6) =
      Some ((LLMClient.demo_conclusion, false), h') /\
    phase (state h') = CONCLUSION.
Proof.
  destruct (closing_phrase_concludes (R := unreachable)
              (handler_at TECHNICAL_QUESTIONS six_fields 6) "i am done"
              eq_refl ltac:(is_an_answer) eq_refl) as (h' & Hrun & Hphase & _).
  exists h'. split; [exact Hrun | exact Hphase].
Defined.

(** C1 on the six answers of a candidate, and on a text that is not an
    email address given at the email step. *)
Lemma six_answers_then_tech_stack_witness :
  (exists h',
     run_session (R := unreachable)
       [ "Ann Lee"; "ann@x.org"; "+1 234 567 8901"; "3.5 years"; "Python developer"; "Paris" ]
       (handler_at INFO_GATHERING [] 0) =
       Some ([INFO_GATHERING; INFO_GATHERING; INFO_GATHERING; INFO_GATHERING;
              INFO_GATHERING; TECH_STACK], h') /\
     Dict.get "current_location" (candidate_info (state h')) = Some "Paris") /\
  (exists h',
     process_message (R := unreachable) "not an email"
       (handler_at INFO_GATHERING [("full_name", "Ann Lee")] 2) =
       Some ((_generate_validation_response "email" "not an email", false), h') /\
     phase (state h') = INFO_GATHERING /\
     current_field_index (state h') = 2 /\
     candidate_info (state h') = [("full_name", "Ann Lee")]).
Proof.
  split.
  - apply (proj1 (six_answers_then_tech_stack (R := unreachable))
             (handler_at INFO_GATHERING [] 0));
      first [ reflexivity | is_an_answer ].
  - apply (proj2 (proj2 (six_answers_then_tech_stack (R := unreachable)))
             (handler_at INFO_GATHERING [("full_name", "Ann Lee")] 2) "not an email");
      first [ reflexivity | is_an_answer ].
Defined.

End StateMachineExamples.

(** ** The chat loop *)

Section ChatLoop.
Import PyStr Config Utils Spec Handler App.
Context {R : Runtime}.

Lemma bye_has_exit_intent : check_exit_intent (sanitize_input "bye") = true.
Proof. reflexivity. Qed.

(** C9, amended: when bye is submitted in a started session that has not
    ended, whatever the phase, [process_message] returns ended true, the
    phase becomes ended and the page marks the conversation as ended; if
    at least one field has been collected, the record written at that
    moment holds the fields collected so far and the history; if no field
    has been collected yet, no record is written. *)
Theorem bye_ends_and_saves_collected_fields (now : Clock) (w : World) :
  initialized (session w) = true ->
  conversation_ended (session w) = false ->
  let h := conversation_handler (session w) in
  let info := candidate_info (state h) in
  exists reply h' w',
    process_message "bye" h = Some ((reply, true), h') /\
    render_chat_interface now "bye" w = Some w' /\
    conversation_handler (session w') = h' /\
    phase (state h') = ENDED /\
    conversation_ended (session w') = true /\
    (info <> [] ->
     exists saved,
       read_file (saved_path now) (files w') = Some saved /\
       Utils.candidate_info saved = info /\
       Utils.conversation_history saved = conversation_history (state h')) /\
    (info = [] -> files w' = files w).
Proof.
  intros Hinit Hended h info.
  destruct (exit_ends_session h "bye" bye_has_exit_intent)
    as (reply & h' & Hrun & Hphase & Hinfo & _).
  unfold render_chat_interface. fold h. rewrite Hinit, Hended, Hrun. simpl negb. cbv iota.
  unfold export_conversation, get_candidate_info, get_conversation_history.
  cbn [session conversation_handler files sidebar].
  rewrite Hinfo. fold info.
  destruct info as [|entry rest] eqn:Einfo.
  - exists reply, h'. eexists. cbn [Dict.truthy]. cbv iota.
    repeat split; try assumption. intro Hne. contradiction.
  - exists reply, h'. eexists. cbn [Dict.truthy]. cbv iota.
    unfold save_candidate_data.
    repeat split; try assumption.
    + intros _. eexists. split.
      * unfold saved_path. cbn [files read_file]. rewrite String.eqb_refl. reflexivity.
      * split; reflexivity.
    + discriminate.
Qed.

End ChatLoop.

Section ChatLoopExamples.
Import PyStr Config Utils Spec Handler App Examples.

(** C9, as stated, fails in the empty case: bye as the first message ends
    the session and no record is written. *)
Lemma bye_before_any_field_saves_nothing :
  exists w',
    render_chat_interface (R := unreachable) noon "bye" started = Some w' /\
    conversation_ended (session w') = true /\
    phase (state (conversation_handler (session w'))) = ENDED /\
    files w' = [] /\
    sidebar w' = [warning "No data to export yet"].
Proof. eexists. split; [vm_compute; reflexivity|]. repeat split. Qed.

(** The amended C9 on a session that has collected six fields. *)
Lemma bye_ends_and_saves_collected_fields_witness :
  exists saved,
    option_map (fun w' => read_file (saved_path noon) (files w'))
      (render_chat_interface (R := unreachable) noon "bye"
         six_answered)
      = Some (Some saved) /\
    Utils.candidate_info saved = six_fields.
Proof.
  destruct (bye_ends_and_saves_collected_fields (R := unreachable) noon
              six_answered eq_refl eq_refl)
    as (reply & h' & w' & _ & Hrender & _ & _ & _ & Hsaved & _).
  destruct Hsaved as (saved & Hread & Hinfo & _); [discriminate|].
  exists saved. rewrite Hrender. simpl option_map. rewrite Hread. split; [reflexivity | exact Hinfo].
Defined.

End ChatLoopExamples.

(** ** The language-model gateway *)

Section Gateway.
Import PyStr LLMClient Spec Notions.
Context {R : Runtime}.

Lemma drop_failed_turn_user (history : list Message) (text : string) :
  drop_failed_turn (history ++ [mkMessage user text]) = history.
Proof.
  unfold drop_failed_turn. rewrite rev_app_distr. simpl. apply removelast_last.
Qed.

(** One iteration of the loop of [generate_response] in online mode. *)
Lemma attempt_loop_step (remaining attempt : nat) (prompt full_prompt : string)
    (history : list Message) (calls : nat) (naps : list nat) :
  attempt_loop (S remaining) attempt 3 prompt full_prompt (mk false history calls naps) =
  match chat_completion calls (history ++ [mkMessage user full_prompt]) with
  | Some answer =>
      (answer,
       mk false (trim ((history ++ [mkMessage user full_prompt]) ++
                       [mkMessage assistant answer])) (S calls) naps)
  | None =>
      if (attempt <? 2)%nat
      then attempt_loop remaining (S attempt) 3 prompt full_prompt
             (mk false history (S calls) (naps ++ [2 ^ attempt * 1]))
      else (_get_demo_response prompt, mk false history (S calls) naps)
  end.
Proof.
  cbn [attempt_loop with_history count_call sleep conversation_history api_calls slept
       demo_mode].
  destruct (chat_completion calls (history ++ [mkMessage user full_prompt])); [reflexivity|].
  rewrite drop_failed_turn_user. reflexivity.
Qed.

(** Close the side conditions on the attempts made so far. *)
Ltac finish_attempts :=
  try solve
    [ auto
    | lia
    | f_equal; lia
    | rewrite <- app_assoc; reflexivity
    | let i := fresh "i" in
      let Hi := fresh "Hi" in
      intros i Hi;
      destruct i as [|[|[|i]]];
      rewrite ?Nat.add_0_r, ?Nat.add_1_r, ?(Nat.add_comm _ 2);
      cbn [Nat.add]; solve [ auto | lia ] ].

(** C4, amended: [generate_response] always returns a text.  In demo mode
    it is the canned text.  In online mode at most three attempts are made;
    every attempt sends the buffer extended with the user turn, a failed
    attempt removes that turn again, the waits are 1s after the first
    failure and 2s after the second, and none after the third; after three
    failures the canned text for the prompt is returned with the buffer as
    it was, and the client does not switch to demo mode. *)
Theorem generate_response_retries_then_falls_back :
  (forall (c : LLMClient.t) (prompt : string),
     demo_mode c = true ->
     generate_response prompt c = (_get_demo_response prompt, c)) /\
  (forall (c : LLMClient.t) (prompt : string),
     demo_mode c = false ->
     let request := (conversation_history c ++ [mkMessage user prompt])%list in
     let r := generate_response prompt c in
     exists failures,
       failures <= 3 /\
       (forall i, i < failures -> chat_completion (api_calls c + i) request = None) /\
       demo_mode (snd r) = false /\
       api_calls (snd r) = api_calls c + Nat.min (S failures) 3 /\
       slept (snd r) = (slept c ++ firstn failures [1; 2])%list /\
       (failures = 3 ->
        fst r = _get_demo_response prompt /\
        conversation_history (snd r) = conversation_history c) /\
       (failures < 3 ->
        chat_completion (api_calls c + failures) request = Some (fst r) /\
        conversation_history (snd r) =
          trim (request ++ [mkMessage assistant (fst r)]))).
Proof.
  split.
  - intros c prompt Hdemo. unfold generate_response, generate_response_with.
    now rewrite Hdemo.
  - intros [demo history calls naps] prompt Hdemo. simpl in Hdemo. subst demo.
    cbn [conversation_history api_calls slept].
    unfold generate_response, generate_response_with. cbn [demo_mode].
    assert (Hidx : forall i, i < 3 ->
              (i = 0 /\ calls + i = calls) \/ (i = 1 /\ calls + i = S calls) \/
              (i = 2 /\ calls + i = S (S calls))) by (intros i Hi; lia).
    rewrite attempt_loop_step.
    destruct (chat_completion calls (history ++ [mkMessage user prompt])) as [a0|] eqn:E0.
    { exists 0. cbn [fst snd demo_mode api_calls slept conversation_history firstn Nat.min].
      rewrite Nat.add_0_r, app_nil_r, Nat.add_1_r.
      repeat split; auto; lia. }
    cbn [Nat.ltb Nat.leb Nat.pow Nat.mul Nat.add]. rewrite attempt_loop_step.
    destruct (chat_completion (S calls) (history ++ [mkMessage user prompt])) as [a1|] eqn:E1.
    { exists 1. cbn [fst snd demo_mode api_calls slept conversation_history firstn Nat.min].
      rewrite Nat.add_1_r.
      repeat split; finish_attempts. }
    cbn [Nat.ltb Nat.leb Nat.pow Nat.mul Nat.add]. rewrite attempt_loop_step.
    destruct (chat_completion (S (S calls)) (history ++ [mkMessage user prompt])) as [a2|] eqn:E2.
    { exists 2. cbn [fst snd demo_mode api_calls slept conversation_history firstn Nat.min].
      replace (calls + 2) with (S (S calls)) by lia.
      repeat split; finish_attempts. }
    cbn [Nat.ltb Nat.leb Nat.pow Nat.mul Nat.add].
    exists 3. cbn [fst snd demo_mode api_calls slept conversation_history firstn Nat.min].
    repeat split; finish_attempts.
Qed.

Lemma trim_short (history : list Message) :
  List.length history <= 21 -> trim history = history.
Proof.
  intro Hlen. unfold trim.
  destruct (Nat.ltb_spec 21 (List.length history)); [lia | reflexivity].
Qed.

Lemma trim_long (first : Message) (rest : list Message) :
  21 < List.length (first :: rest) ->
  trim (first :: rest) = first :: last_n 20 (first :: rest).
Proof.
  intro Hlen. unfold trim.
  destruct (Nat.ltb_spec 21 (List.length (first :: rest))); [reflexivity | lia].
Qed.

Lemma last_n_length {A : Type} (n : nat) (xs : list A) :
  n <= List.length xs -> List.length (last_n n xs) = n.
Proof. intro Hn. unfold last_n. rewrite length_skipn. lia. Qed.

(** The buffer after one more exchange is added to a buffer that starts
    with [first] and holds at most 21 entries. *)
Lemma trim_after_exchange (first : Message) (rest : list Message) (u a : Message) :
  List.length (first :: rest) <= 21 ->
  exists rest',
    trim (((first :: rest) ++ [u]) ++ [a]) = first :: rest' /\
    List.length (first :: rest') = Nat.min (List.length (first :: rest) + 2) 21.
Proof.
  intro Hlen.
  assert (Hl : List.length (((first :: rest) ++ [u]) ++ [a]) = List.length (first :: rest) + 2)
    by (rewrite !length_app; simpl; lia).
  destruct (Nat.le_gt_cases (List.length (first :: rest) + 2) 21) as [Hs|Hs].
  - rewrite trim_short by lia. exists ((rest ++ [u]) ++ [a])%list.
    split; [reflexivity|].
    change (first :: (rest ++ [u]) ++ [a])%list with (((first :: rest) ++ [u]) ++ [a])%list.
    rewrite Hl. lia.
  - change (((first :: rest) ++ [u]) ++ [a])%list with (first :: (rest ++ [u]) ++ [a])%list in *.
    rewrite trim_long by lia. eexists. split; [reflexivity|].
    simpl List.length at 1. rewrite last_n_length by lia. lia.
Qed.

Lemma successful_exchange (c : LLMClient.t) (prompt answer : string) :
  demo_mode c = false ->
  chat_completion (api_calls c) (conversation_history c ++ [mkMessage user prompt]) =
    Some answer ->
  generate_response prompt c =
    (answer,
     mk false (trim ((conversation_history c ++ [mkMessage user prompt]) ++
                     [mkMessage assistant answer]))
        (S (api_calls c)) (slept c)).
Proof.
  destruct c as [demo history calls naps]. simpl. intros -> Hanswer.
  unfold generate_response, generate_response_with. cbn [demo_mode].
  rewrite attempt_loop_step, Hanswer. reflexivity.
Qed.

Lemma window_exchange (c : LLMClient.t) (prompt : string) :
  (forall n request, chat_completion n request <> None) ->
  window c ->
  window (snd (generate_response prompt c)) /\
  List.length (conversation_history (snd (generate_response prompt c))) =
    Nat.min (List.length (conversation_history c) + 2) 21.
Proof.
  intros Hup (Hdemo & Hlen & Hhd).
  destruct (chat_completion (api_calls c) (conversation_history c ++ [mkMessage user prompt]))
    as [answer|] eqn:Hanswer; [|now apply Hup in Hanswer].
  rewrite (successful_exchange c prompt answer Hdemo Hanswer).
  cbn [snd conversation_history demo_mode]. unfold window. cbn [conversation_history demo_mode].
  destruct (conversation_history c) as [|first rest]; [discriminate Hhd|].
  simpl in Hhd. injection Hhd as ->.
  destruct (trim_after_exchange system_turn rest (mkMessage user prompt)
              (mkMessage assistant answer) Hlen) as (rest' & -> & Hl).
  rewrite Hl. repeat split. apply Nat.le_min_r.
Qed.

Lemma window_exchanges (prompts : list string) :
  (forall n request, chat_completion n request <> None) ->
  forall c, window c ->
  window (exchanges prompts c) /\
  List.length (conversation_history (exchanges prompts c)) =
    Nat.min (List.length (conversation_history c) + 2 * List.length prompts) 21.
Proof.
  intro Hup. induction prompts as [|prompt prompts IH]; intros c Hw.
  - simpl. split; [exact Hw|]. destruct Hw as (_ & Hlen & _). lia.
  - destruct (window_exchange c prompt Hup Hw) as [Hw' Hl'].
    destruct (IH _ Hw') as [Hw'' Hl''].
    unfold exchanges in *. simpl fold_left. split; [exact Hw''|].
    rewrite Hl'', Hl'. simpl List.length. lia.
Qed.




End Gateway.

Section GatewayExamples.
Import PyStr LLMClient Examples Notions.

(** C4, as stated, fails on the waits: when the three attempts fail, the
    client has slept 1s and 2s, and never 4s, before it returns the canned
    text. *)
Lemma three_failures_wait_one_then_two :
  api_calls (snd (generate_response (R := unreachable) "hello" connected)) = 3 /\
  slept (snd (generate_response (R := unreachable) "hello" connected)) = [1; 2] /\
  slept (snd (generate_response (R := unreachable) "hello" connected)) <> [1; 2; 4] /\
  fst (generate_response (R := unreachable) "hello" connected) = _get_demo_response "hello".
Proof.
  split; [reflexivity|]. split; [reflexivity|].
  split; [|reflexivity]. vm_compute. discriminate.
Qed.

(** The amended C4 on an online client whose endpoint is unreachable. *)
Lemma generate_response_retries_then_falls_back_witness :
  demo_mode connected = false /\
  exists failures,
    failures <= 3 /\
    slept (snd (generate_response (R := unreachable) "hello" connected)) =
      firstn failures [1; 2].
Proof.
  split; [reflexivity|].
  destruct (proj2 (generate_response_retries_then_falls_back (R := unreachable))
              connected "hello" eq_refl)
    as (failures & Hle & _ & _ & _ & Hslept & _).
  exists failures. split; [exact Hle | exact Hslept].
Defined.



End GatewayExamples.

(** ** [parse_tech_stack] *)

Section TechStack.
Import PyStr Utils Spec Notions.
Context {R : Runtime}.

Lemma NoDup_firstn {A : Type} (n : nat) (l : list A) : NoDup l -> NoDup (firstn n l).
Proof.
  intro Hl. rewrite <- (firstn_skipn n l) in Hl. now apply NoDup_app_remove_r in Hl.
Qed.

Lemma In_firstn {A : Type} (n : nat) (l : list A) (x : A) : In x (firstn n l) -> In x l.
Proof.
  intro Hin. rewrite <- (firstn_skipn n l). apply in_or_app. now left.
Qed.

Lemma set_to_list_NoDup (l : list string) : NoDup (set_to_list l).
Proof.
  apply (Permutation_NoDup (Permutation_sym (set_to_list_perm l))), NoDup_nodup.
Qed.

(** The result for a text with at most 15 distinct findings. *)
Lemma parse_tech_stack_small (text : string) :
  List.length (nodup string_dec (identified_technologies text)) <= 15 ->
  Permutation (parse_tech_stack text) (nodup string_dec (identified_technologies text)).
Proof.
  intro Hlen. unfold parse_tech_stack.
  rewrite firstn_all2; [apply set_to_list_perm|].
  now rewrite (Permutation_length (set_to_list_perm _)).
Qed.

Lemma known_technologies_distinct : NoDup known_technologies.
Proof.
  assert (E : nodup string_dec known_technologies = known_technologies)
    by (vm_compute; reflexivity).
  rewrite <- E. apply NoDup_nodup.
Qed.

Lemma display_name_lower (tech : string) :
  In tech known_technologies -> lower (display_name tech) = tech.
Proof.
  assert (E : List.forallb (fun t => String.eqb (lower (display_name t)) t)
                known_technologies = true) by (vm_compute; reflexivity).
  intro Hin. rewrite forallb_forall in E. now apply String.eqb_eq, E.
Qed.

Lemma known_matches_lower (lower_text : string) :
  List.map lower (known_matches lower_text) =
  List.filter (fun tech => contains tech lower_text) known_technologies.
Proof.
  unfold known_matches. rewrite map_map.
  rewrite <- (map_id (List.filter _ known_technologies)) at 2.
  apply map_ext_in. intros tech Hin. apply filter_In in Hin.
  now apply display_name_lower.
Qed.

Lemma mem_false (x : string) (xs : list string) : mem x xs = false -> ~ In x xs.
Proof.
  unfold mem. intros H Hin.
  assert (E : List.existsb (String.eqb x) xs = true).
  { apply List.existsb_exists. exists x. split; [exact Hin | apply String.eqb_refl]. }
  congruence.
Qed.

Lemma NoDup_snoc {A : Type} (l : list A) (x : A) :
  NoDup l -> ~ In x l -> NoDup (l ++ [x]).
Proof.
  intros Hl Hx. apply (Permutation_NoDup (Permutation_cons_append l x)).
  now constructor.
Qed.

Lemma add_custom_distinct (pieces : list string) :
  forall identified,
    NoDup (List.map lower identified) ->
    NoDup (List.map lower (add_custom pieces identified)).
Proof.
  induction pieces as [|piece pieces IH]; intros identified Hd; simpl; [exact Hd|].
  destruct (negb (String.eqb (strip piece) "")); simpl; [|now apply IH].
  destruct (1 <? String.length (strip piece))%nat; simpl; [|now apply IH].
  destruct (mem (lower (strip piece)) (List.map lower identified)) eqn:Hm; simpl;
    [now apply IH|].
  apply IH. rewrite map_app. simpl. apply NoDup_snoc; [exact Hd | now apply mem_false].
Qed.

Lemma identified_distinct (text : string) :
  NoDup (List.map lower (identified_technologies text)).
Proof.
  unfold identified_technologies. apply add_custom_distinct.
  rewrite known_matches_lower. apply NoDup_filter, known_technologies_distinct.
Qed.

(** The pieces of [split_on]: the text is made of them with one separator
    between each two, and no piece holds a separator. *)
Lemma split_on_spec (sep : ascii -> bool) (s : string) :
  exists seps,
    s = glue (split_on sep s) seps /\
    List.length (split_on sep s) = S (List.length seps) /\
    List.forallb sep seps = true /\
    forall piece, In piece (split_on sep s) -> PyStr.existsb sep piece = false.
Proof.
  induction s as [|c s (seps & Hglue & Hlen & Hseps & Hpieces)]; simpl.
  - exists []. repeat split; auto. intros piece [<-|[]]. reflexivity.
  - destruct (sep c) eqn:Hc.
    + exists (c :: seps). simpl. rewrite Hc, Hlen, Hseps, <- Hglue.
      repeat split; auto. intros piece [<-|Hin]; [reflexivity | auto].
    + destruct (split_on sep s) as [|w ws]; [discriminate Hlen|].
      exists seps. repeat split; auto.
      * rewrite Hglue. simpl. now destruct seps.
      * intros piece [<-|Hin]; simpl.
        -- rewrite Hc. apply Hpieces. now left.
        -- apply Hpieces. now right.
Qed.

Lemma length_lower (s : string) : String.length (lower s) = String.length s.
Proof.
  unfold lower. induction s as [|c s IH]; simpl; [reflexivity | now rewrite IH].
Qed.

Lemma mem_true (x : string) (xs : list string) : mem x xs = true -> In x xs.
Proof.
  unfold mem. intro H. apply List.existsb_exists in H.
  destruct H as (y & Hin & Heq). apply String.eqb_eq in Heq. now subst.
Qed.

(** What the second loop adds: stripped pieces longer than one character,
    each the first of its spelling up to case and none equal up to case
    to an entry found before the loop; and every piece longer than one
    character once stripped is in the list up to case. *)
Lemma add_custom_spec (pieces : list string) :
  forall identified,
  exists extra,
    add_custom pieces identified = (identified ++ extra)%list /\
    (forall tech, In tech extra ->
       exists before piece after,
         pieces = (before ++ piece :: after)%list /\
         tech = strip piece /\
         1 < String.length tech /\
         ~ In (lower tech) (List.map lower identified) /\
         forall earlier, In earlier before -> lower (strip earlier) <> lower tech) /\
    (forall piece, In piece pieces -> 1 < String.length (strip piece) ->
       In (lower (strip piece)) (List.map lower (identified ++ extra))).
Proof.
  induction pieces as [|piece pieces IH]; intro identified.
  - exists []. rewrite app_nil_r. split; [reflexivity|]. split; [intros tech []|intros p []].
  - simpl add_custom.
    destruct (negb (String.eqb (strip piece) "") && (1 <? String.length (strip piece))%nat
              && negb (mem (lower (strip piece)) (List.map lower identified))) eqn:Hkeep.
    + apply andb_true_iff in Hkeep. destruct Hkeep as [Hkeep Hnew].
      apply andb_true_iff in Hkeep. destruct Hkeep as [_ Hlong].
      apply Nat.ltb_lt in Hlong. apply negb_true_iff, mem_false in Hnew.
      destruct (IH (identified ++ [strip piece])%list) as (extra & Heq & Hfrom & Hall).
      exists (strip piece :: extra). rewrite Heq, <- app_assoc. split; [reflexivity|].
      split.
      * intros tech [<-|Hin].
        -- exists [], piece, pieces. repeat split; auto.
        -- destruct (Hfrom tech Hin) as (before & p & after & -> & -> & Hl & Hn & Hfirst).
           rewrite map_app, in_app_iff in Hn. simpl in Hn.
           exists (piece :: before), p, after. repeat split; auto.
           intros earlier [<-|He]; [intro E; apply Hn; right; left; exact E | auto].
      * intros p [<-|Hin] Hl.
        -- rewrite map_app. apply in_or_app. right. now left.
        -- specialize (Hall p Hin Hl). now rewrite <- app_assoc in Hall.
    + destruct (IH identified) as (extra & Heq & Hfrom & Hall).
      exists extra. split; [exact Heq|]. split.
      * intros tech Hin.
        destruct (Hfrom tech Hin) as (before & p & after & -> & -> & Hl & Hn & Hfirst).
        exists (piece :: before), p, after. repeat split; auto.
        intros earlier [<-|He]; [|auto]. intro E.
        destruct (String.eqb (strip piece) "") eqn:Hempty.
        { apply String.eqb_eq in Hempty. rewrite Hempty in E.
          apply (f_equal String.length) in E. rewrite !length_lower in E. simpl in E. lia. }
        destruct (1 <? String.length (strip piece))%nat eqn:Hlong.
        { simpl in Hkeep. apply negb_false_iff, mem_true in Hkeep.
          rewrite E in Hkeep. contradiction. }
        apply Nat.ltb_ge in Hlong. apply (f_equal String.length) in E.
        rewrite !length_lower in E. lia.
      * intros p [<-|Hin] Hl; [|auto].
        destruct (String.eqb (strip piece) "") eqn:Hempty.
        { apply String.eqb_eq in Hempty. rewrite Hempty in Hl. simpl in Hl. lia. }
        apply Nat.ltb_lt in Hl. rewrite Hl in Hkeep. simpl in Hkeep.
        apply negb_false_iff, mem_true in Hkeep.
        rewrite map_app. apply in_or_app. now left.
Qed.

(** C3, amended: the list returned by [parse_tech_stack] has at most 15
    entries, all different, all taken from the technologies identified in
    the text.  These are: the known names found in the lower-cased text,
    in the order of the vocabulary and written in title case (upper case
    for names of at most 3 characters); then unlisted pieces, where the
    pieces are the parts of the text between its separators (comma,
    semicolon, slash, newline): each unlisted entry is a piece stripped
    of its blanks, longer than one character, not equal up to case to a
    known name found in the text, and the first piece with its spelling
    up to case; every piece longer than one character once stripped is
    identified up to case, and no two identified technologies are equal
    up to case.  The order of the result is the iteration order of a set,
    so not fixed; when at most 15 different technologies are identified
    the result holds each of them.  For the text Python, Django,
    PostgreSQL it is some arrangement of Python, GO, R, Django and
    Postgresql. *)
Theorem parse_tech_stack_bounded_set (text : string) :
  List.length (parse_tech_stack text) <= 15 /\
  NoDup (parse_tech_stack text) /\
  incl (parse_tech_stack text) (identified_technologies text) /\
  (exists pieces seps unlisted,
     text = glue pieces seps /\
     List.length pieces = S (List.length seps) /\
     List.forallb (one_of (",;/" ++ nl)) seps = true /\
     (forall piece, In piece pieces -> PyStr.existsb (one_of (",;/" ++ nl)) piece = false) /\
     identified_technologies text =
       (List.map display_name
          (List.filter (fun tech => contains tech (lower text)) known_technologies)
        ++ unlisted)%list /\
     (forall tech, In tech unlisted ->
        exists before piece after,
          pieces = (before ++ piece :: after)%list /\
          tech = strip piece /\
          1 < String.length tech /\
          ~ In (lower tech)
              (List.filter (fun tech => contains tech (lower text)) known_technologies) /\
          forall earlier, In earlier before -> lower (strip earlier) <> lower tech) /\
     (forall piece, In piece pieces -> 1 < String.length (strip piece) ->
        In (lower (strip piece)) (List.map lower (identified_technologies text)))) /\
  NoDup (List.map lower (identified_technologies text)) /\
  (List.length (nodup string_dec (identified_technologies text)) <= 15 ->
   Permutation (parse_tech_stack text) (nodup string_dec (identified_technologies text)) /\
   incl (identified_technologies text) (parse_tech_stack text)) /\
  Permutation (parse_tech_stack "Python, Django, PostgreSQL")
              ["Python"; "GO"; "R"; "Django"; "Postgresql"].
Proof.
  split; [apply firstn_le_length|].
  split; [apply NoDup_firstn, set_to_list_NoDup|].
  split; [|split; [|split; [|split]]].
  - intros tech Hin. apply In_firstn in Hin.
    apply (Permutation_in _ (set_to_list_perm _)) in Hin.
    now apply nodup_In in Hin.
  - destruct (split_on_spec (one_of (",;/" ++ nl)) text) as (seps & Hglue & Hlen & Hseps & Hp).
    unfold identified_technologies.
    destruct (add_custom_spec (split_on (one_of (",;/" ++ nl)) text)
                (known_matches (lower text))) as (unlisted & Heq & Hfrom & Hall).
    rewrite known_matches_lower in Hfrom.
    exists (split_on (one_of (",;/" ++ nl)) text), seps, unlisted.
    rewrite Heq. repeat split; auto.
  - apply identified_distinct.
  - intro Hlen. pose proof (parse_tech_stack_small text Hlen) as Hperm.
    split; [exact Hperm|]. intros tech Hin.
    apply (Permutation_in _ (Permutation_sym Hperm)). now apply nodup_In.
  - replace ["Python"; "GO"; "R"; "Django"; "Postgresql"]
      with (nodup string_dec (identified_technologies "Python, Django, PostgreSQL"))
      by (vm_compute; reflexivity).
    apply parse_tech_stack_small. vm_compute. lia.
Qed.

End TechStack.

Section TechStackExamples.
Import PyStr Utils Spec Examples.

(** C3, as stated, fails: for the text Python, Django, PostgreSQL no
    iteration order of the set gives the list Python, Django, PostgreSQL
    (the result has five entries, GO and R among them, and the database is
    written Postgresql); and with sets listed the other way round the
    result is not in the order of discovery. *)
Lemma parse_tech_stack_example_differs :
  ~ (exists R : Runtime,
       parse_tech_stack (R := R) "Python, Django, PostgreSQL" =
         ["Python"; "Django"; "PostgreSQL"]) /\
  identified_technologies "Python, Django, PostgreSQL" =
    ["Python"; "GO"; "R"; "Django"; "Postgresql"] /\
  parse_tech_stack (R := reversing) "Python, Django, PostgreSQL" =
    ["Postgresql"; "Django"; "R"; "GO"; "Python"].
Proof.
  split; [|split; vm_compute; reflexivity].
  intros [R Heq].
  assert (Hperm := parse_tech_stack_small (R := R) "Python, Django, PostgreSQL").
  rewrite Heq in Hperm. specialize (Hperm ltac:(vm_compute; lia)).
  replace (nodup string_dec (identified_technologies "Python, Django, PostgreSQL"))
    with ["Python"; "GO"; "R"; "Django"; "Postgresql"] in Hperm
    by (vm_compute; reflexivity). apply Permutation_length in Hperm. discriminate Hperm.
Qed.

End TechStackExamples.

(* ================================================================== *)
(** * Further properties *)
(* ================================================================== *)

(** ** More on the validators *)

Section Repetitions.
Import PyStr Regex.

Lemma length_append (a b : string) :
  String.length (a ++ b) = String.length a + String.length b.
Proof. induction a as [|c a IH]; simpl; [reflexivity | now rewrite IH]. Qed.

(** A text can be cut after any number of its characters. *)
Lemma cut_at (n : nat) (s : string) :
  n <= String.length s ->
  exists a b, s = a ++ b /\ String.length a = n.
Proof.
  revert s. induction n as [|n IH]; intros s Hn.
  - exists "", s. auto.
  - destruct s as [|c s]; simpl in Hn; [lia|].
    destruct (IH s) as (a & b & -> & Ha); [lia|].
    exists (String c a), b. simpl. auto.
Qed.

Lemma Lang_Star_of_class (p : ascii -> bool) (s : string) :
  PyStr.forallb p s = true -> Lang (Star (Cls p)) s.
Proof.
  induction s as [|c s IH]; simpl; intro H.
  - constructor.
  - apply andb_true_iff in H. destruct H as [Hc Hs].
    change (String c s) with (String c "" ++ s).
    apply LStarS; [now constructor | auto].
Qed.

Lemma Lang_Times_class (p : ascii -> bool) (n : nat) (s : string) :
  Lang (Times n (Cls p)) s <-> String.length s = n /\ PyStr.forallb p s = true.
Proof.
  revert s. induction n as [|n IH]; intro s; simpl.
  - split.
    + intro L. inversion L; subst. auto.
    + intros [Hl _]. destruct s; [constructor | discriminate].
  - split.
    + intro L. apply Lang_Cat_inv in L. destruct L as (a & b & -> & La & Lb).
      apply Lang_Cls_inv in La. destruct La as (c & -> & Hc).
      apply IH in Lb. destruct Lb as [Hl Hp]. simpl. rewrite Hc, Hp, Hl. auto.
    + intros [Hl Hp]. destruct s as [|c s]; [discriminate|].
      simpl in Hl, Hp. apply andb_true_iff in Hp. destruct Hp as [Hc Hp].
      change (String c s) with (String c "" ++ s).
      constructor; [now constructor | apply IH; split; [lia | auto]].
Qed.

Lemma Lang_UpTo_class (p : ascii -> bool) (k : nat) (s : string) :
  Lang (UpTo k (Cls p)) s <-> String.length s <= k /\ PyStr.forallb p s = true.
Proof.
  revert s. induction k as [|k IH]; intro s; simpl.
  - split.
    + intro L. inversion L; subst. auto.
    + intros [Hl _]. destruct s; [constructor | simpl in Hl; lia].
  - split.
    + intro L. inversion L; subst.
      * match goal with L' : Lang Eps _ |- _ => inversion L'; subst end. simpl. split; [lia | auto].
      * match goal with L' : Lang (Cat _ _) _ |- _ =>
          apply Lang_Cat_inv in L'; destruct L' as (a & b & -> & La & Lb) end.
        apply Lang_Cls_inv in La. destruct La as (c & -> & Hc).
        apply IH in Lb. destruct Lb as [Hl Hp]. simpl. rewrite Hc, Hp. split; [lia | auto].
    + intros [Hl Hp]. destruct s as [|c s].
      * apply LAltL. constructor.
      * simpl in Hl, Hp. apply andb_true_iff in Hp. destruct Hp as [Hc Hp].
        apply LAltR. change (String c s) with (String c "" ++ s).
        constructor; [now constructor | apply IH; split; [lia | auto]].
Qed.

Lemma Lang_Between_class (p : ascii -> bool) (n m : nat) (s : string) :
  n <= m ->
  (Lang (Between n m (Cls p)) s <->
   n <= String.length s <= m /\ PyStr.forallb p s = true).
Proof.
  intro Hnm. unfold Between. split.
  - intro L. apply Lang_Cat_inv in L. destruct L as (a & b & -> & La & Lb).
    apply Lang_Times_class in La. apply Lang_UpTo_class in Lb.
    rewrite length_append, forallb_append.
    destruct La as [-> ->], Lb as [Hl ->]. split; [lia | reflexivity].
  - intros [Hl Hp]. destruct (cut_at n s) as (a & b & -> & Ha); [lia|].
    rewrite forallb_append in Hp. apply andb_true_iff in Hp. destruct Hp as [Hpa Hpb].
    rewrite length_append in Hl.
    constructor; [apply Lang_Times_class | apply Lang_UpTo_class]; split; auto; lia.
Qed.

Lemma chop_newline_clean (s : string) :
  PyStr.forallb (fun c => negb (isspace c)) s = true -> chop_newline s = None.
Proof.
  intro Hs. destruct (chop_newline s) as [t|] eqn:E; [|reflexivity].
  apply chop_newline_append in E. subst s.
  rewrite forallb_append in Hs. apply andb_true_iff in Hs.
  destruct Hs as [_ Hs]. discriminate Hs.
Qed.

Lemma forallb_filter (p : ascii -> bool) (s : string) :
  PyStr.forallb p (PyStr.filter p s) = true.
Proof.
  induction s as [|c s IH]; simpl; [reflexivity|].
  destruct (p c) eqn:Hc; simpl; [now rewrite Hc|assumption].
Qed.

Lemma forallb_weaken (p q : ascii -> bool) (s : string) :
  (forall c, p c = true -> q c = true) ->
  PyStr.forallb p s = true -> PyStr.forallb q s = true.
Proof.
  intro Hpq. induction s as [|c s IH]; simpl; [auto|].
  intro H. apply andb_true_iff in H. destruct H as [Hc Hs].
  now rewrite (Hpq c Hc), IH.
Qed.

End Repetitions.

Section Phone.
Import PyStr Regex Utils Notions.

Lemma cleaned_phone_no_space (phone : string) :
  PyStr.forallb (fun c => negb (isspace c)) (cleaned_phone phone) = true.
Proof.
  apply (forallb_weaken (fun c => negb (phone_separator c))); [|apply forallb_filter].
  intros c. unfold phone_separator. rewrite negb_orb. intro H.
  now apply andb_true_iff in H.
Qed.

(** X1: [validate_phone] accepts a text exactly when, once whitespace,
    dashes, dots and parentheses are taken out of it wherever they stand,
    what is left is 10 to 15 digits, with or without one plus sign in
    front. *)
Theorem validate_phone_digits (phone : string) :
  validate_phone phone = true <->
  exists digits,
    (cleaned_phone phone = digits \/ cleaned_phone phone = String "+" digits) /\
    PyStr.forallb is_digit digits = true /\
    10 <= String.length digits <= 15.
Proof.
  unfold validate_phone, match_anchored. fold (cleaned_phone phone).
  rewrite (chop_newline_clean _ (cleaned_phone_no_space phone)), orb_false_r.
  rewrite fullmatch_Lang. unfold phone_pattern. split.
  - intro L. apply Lang_Cat_inv in L. destruct L as (a & b & Heq & La & Lb).
    apply Lang_Between_class in Lb; [|lia]. destruct Lb as [Hl Hp].
    exists b. split; [|auto].
    inversion La; subst.
    + match goal with L' : Lang Eps _ |- _ => inversion L'; subst end. now left.
    + match goal with L' : Lang (Cls _) _ |- _ =>
        apply Lang_Cls_inv in L'; destruct L' as (c & -> & Hc) end.
      apply one_of_single in Hc. subst c. now right.
  - intros (digits & [Heq|Heq] & Hp & Hl); rewrite Heq.
    + change digits with ("" ++ digits).
      constructor; [apply LAltL; constructor | apply Lang_Between_class; auto; lia].
    + change (String "+" digits) with (String "+" "" ++ digits).
      constructor; [apply LAltR; now constructor | apply Lang_Between_class; auto; lia].
Qed.

End Phone.

Section Experience.
Import PyStr Regex Utils Notions.
Context {R : Runtime}.

Lemma span_digits_spec (s : string) :
  s = fst (span_digits s) ++ snd (span_digits s) /\
  PyStr.forallb is_digit (fst (span_digits s)) = true.
Proof.
  induction s as [|c s [IHa IHb]]; simpl; [auto|].
  destruct (is_digit c) eqn:Hc; simpl; [|auto].
  destruct (span_digits s) as [d r]. simpl in *. rewrite Hc, IHb. split; [now f_equal | auto].
Qed.

Lemma Lang_Plus_of_class (p : ascii -> bool) (s : string) :
  s <> "" -> PyStr.forallb p s = true -> Lang (Plus (Cls p)) s.
Proof.
  destruct s as [|c s]; [congruence|]. simpl. intros _ H.
  apply andb_true_iff in H. destruct H as [Hc Hs].
  change (String c s) with (String c "" ++ s).
  constructor; [now constructor | now apply Lang_Star_of_class].
Qed.

(** What [number_here] reads at a digit is a match of the pattern, and a
    prefix of the text. *)
Lemma number_here_spec (c : ascii) (s : string) :
  is_digit c = true ->
  Lang number_pattern (number_here (String c s)) /\
  exists post, String c s = number_here (String c s) ++ post.
Proof.
  intro Hc. unfold number_here.
  destruct (span_digits_spec (String c s)) as [Heq Hd].
  destruct (span_digits (String c s)) as [whole rest] eqn:Hspan. simpl in Heq, Hd.
  assert (Hw : whole <> "").
  { simpl in Hspan. rewrite Hc in Hspan. destruct (span_digits s).
    injection Hspan as <- _. discriminate. }
  assert (Lw : Lang (Plus (Cls is_digit)) whole) by now apply Lang_Plus_of_class.
  assert (Plain : Lang number_pattern whole).
  { rewrite <- (append_nil_r whole). constructor; [exact Lw | apply LAltL; constructor]. }
  destruct rest as [|d rest]; [split; [exact Plain | eauto]|].
  destruct (Ascii.eqb_spec d "."); [subst d|].
  - destruct (span_digits_spec rest) as [Hr Hf].
    destruct (fst (span_digits rest)) as [|f frac] eqn:Hfrac.
    + split; [exact Plain | eauto].
    + split.
      * constructor; [exact Lw|]. apply LAltR.
        change ("." ++ String f frac) with (String "." "" ++ String f frac).
        constructor; [now constructor | now apply Lang_Plus_of_class].
      * exists (snd (span_digits rest)). rewrite Heq at 1. rewrite Hr at 1.
        rewrite !append_assoc. reflexivity.
  - assert (E : match d with
                | "."%char => match fst (span_digits rest) with
                              | "" => whole
                              | String a s0 => whole ++ "." ++ String a s0
                              end
                | _ => whole
                end = whole).
    { destruct d as [[] [] [] [] [] [] [] []]; try reflexivity. congruence. }
    rewrite E. split; [exact Plain | eauto].
Qed.

Lemma span_digits_append (w x : string) :
  PyStr.forallb is_digit w = true ->
  span_digits (w ++ x) = (w ++ fst (span_digits x), snd (span_digits x)).
Proof.
  induction w as [|c w IH]; simpl; intro H.
  - now destruct (span_digits x).
  - apply andb_true_iff in H. destruct H as [Hc Hw]. rewrite Hc, (IH Hw). reflexivity.
Qed.

Lemma Lang_Plus_class_inv (p : ascii -> bool) (s : string) :
  Lang (Plus (Cls p)) s -> s <> "" /\ PyStr.forallb p s = true.
Proof.
  intro L. split.
  - apply Lang_Cat_inv in L. destruct L as (a & b & -> & La & _).
    inversion La; subst. discriminate.
  - apply (Lang_classes_within p _ _ L). simpl. auto.
Qed.

(** The matches of the pattern: digits, or digits, a dot and digits. *)
Lemma number_pattern_inv (n : string) :
  Lang number_pattern n ->
  exists whole, whole <> "" /\ PyStr.forallb is_digit whole = true /\
    (n = whole \/
     exists frac, frac <> "" /\ PyStr.forallb is_digit frac = true /\
                  n = whole ++ "." ++ frac).
Proof.
  intro L. apply Lang_Cat_inv in L. destruct L as (whole & tail & -> & Lw & Lt).
  apply Lang_Plus_class_inv in Lw. destruct Lw as [Hw Hd].
  exists whole. split; [exact Hw|]. split; [exact Hd|].
  inversion Lt; subst.
  - match goal with H : Lang Eps _ |- _ => inversion H; subst end.
    left. apply append_nil_r.
  - match goal with H : Lang (Cat _ _) _ |- _ => apply Lang_Cat_inv in H;
      destruct H as (dot & frac & -> & Ld & Lf) end.
    apply Lang_Plus_class_inv in Lf. destruct Lf as [Hf Hfd].
    inversion Ld; subst.
    match goal with H : one_of "." _ = true |- _ => rename H into Hdot end.
    right. exists frac. split; [exact Hf|]. split; [exact Hfd|].
    assert (c = "."%char).
    { unfold one_of in Hdot. simpl in Hdot. rewrite orb_false_r in Hdot.
      now apply Ascii.eqb_eq in Hdot. }
    subst c. reflexivity.
Qed.

(** No match of the pattern that starts where [number_here] reads is
    longer than what it reads. *)
Lemma number_here_longest (s n' post' : string) :
  s = n' ++ post' -> Lang number_pattern n' ->
  String.length n' <= String.length (number_here s).
Proof.
  intros -> L. destruct (number_pattern_inv n' L) as (whole & Hw & Hd & [->|Hfrac]).
  - unfold number_here. rewrite (span_digits_append whole post' Hd).
    assert (Hle : String.length whole <=
                  String.length (whole ++ fst (span_digits post')))
      by (rewrite length_append; lia).
    destruct (snd (span_digits post')) as [|d rest]; [exact Hle|].
    destruct (Ascii.eqb_spec d "."); [subst d|].
    + destruct (fst (span_digits rest)) as [|f frac]; [exact Hle|].
      rewrite !length_append in *. lia.
    + assert (E : forall (a b : string), match d with "."%char => a | _ => b end = b).
      { intros a b. destruct d as [[] [] [] [] [] [] [] []]; try reflexivity. congruence. }
      rewrite E. exact Hle.
  - destruct Hfrac as (frac & Hf & Hfd & ->).
    unfold number_here. rewrite append_assoc.
    rewrite (span_digits_append whole _ Hd). simpl.
    rewrite append_nil_r.
    rewrite (span_digits_append frac post' Hfd). simpl.
    destruct frac as [|f frac]; [congruence|]. simpl.
    rewrite !length_append. simpl. rewrite !length_append. lia.
Qed.

Lemma first_number_none (s : string) :
  first_number s = None <-> PyStr.existsb is_digit s = false.
Proof.
  induction s as [|c s IH]; simpl; [tauto|].
  destruct (is_digit c); simpl; [split; discriminate | exact IH].
Qed.

Lemma first_number_some (s n : string) :
  first_number s = Some n ->
  exists pre post,
    s = pre ++ n ++ post /\
    PyStr.existsb is_digit pre = false /\
    fullmatch number_pattern n = true /\
    (forall n' post',
       n ++ post = n' ++ post' -> fullmatch number_pattern n' = true ->
       String.length n' <= String.length n).
Proof.
  revert n. induction s as [|c s IH]; intro n; simpl; [discriminate|].
  destruct (is_digit c) eqn:Hc.
  - intro E. injection E as <-.
    destruct (number_here_spec c s Hc) as [L [post Hpost]].
    exists "", post. simpl. split; [exact Hpost|]. split; [reflexivity|].
    split; [now apply fullmatch_Lang|].
    intros n' post' Heq Hn'. apply (number_here_longest _ n' post').
    + now rewrite <- Heq, <- Hpost.
    + now apply fullmatch_Lang.
  - intro E. destruct (IH n E) as (pre & post & -> & Hpre & Hn).
    exists (String c pre), post. simpl. rewrite Hc, Hpre. auto.
Qed.

Lemma find_none_forallb {A : Type} (f : A -> bool) (l : list A) :
  List.find f l = None <-> List.forallb (fun x => negb (f x)) l = true.
Proof.
  induction l as [|x l IH]; simpl; [tauto|].
  destruct (f x); simpl; [split; discriminate | exact IH].
Qed.

(** X2: on a text of characters below code point 256, where the decimal
    digits are 0 to 9, [validate_experience] reads the leftmost number of
    the text, and the whole of it: a match of [\d+(\.\d+)?] with no digit
    before it, than which no match starting at the same place is longer;
    a text with a digit always has one, and any spelled-out word is then
    ignored; it gives no value exactly when the text has no digit and its
    lower-cased form contains none of the thirteen words. *)
Theorem validate_experience_parses :
  (forall e n, first_number e = Some n ->
     validate_experience e = Some (float_of_literal n) /\
     exists pre post,
       e = pre ++ n ++ post /\
       PyStr.existsb is_digit pre = false /\
       fullmatch number_pattern n = true /\
       (forall n' post',
          n ++ post = n' ++ post' -> fullmatch number_pattern n' = true ->
          String.length n' <= String.length n)) /\
  (forall e, PyStr.existsb is_digit e = true -> exists n, first_number e = Some n) /\
  (forall e, validate_experience e = None <->
     PyStr.existsb is_digit e = false /\
     List.forallb (fun entry => negb (contains (fst entry) (lower e))) text_to_num = true).
Proof.
  split; [|split].
  - intros e n Hn. split; [|now apply first_number_some].
    unfold validate_experience. now rewrite Hn.
  - intros e He. destruct (first_number e) as [n|] eqn:Hn; [eauto|].
    apply first_number_none in Hn. congruence.
  - intro e. unfold validate_experience.
    destruct (first_number e) as [n|] eqn:Hn.
    + split; [discriminate|]. intros [Hd _]. apply first_number_none in Hd. congruence.
    + apply first_number_none in Hn. rewrite <- find_none_forallb.
      destruct (List.find _ text_to_num) as [[w num]|]; split; try discriminate; auto.
      intros [_ H]. discriminate H.
Qed.

End Experience.

Section Sanitize.
Import PyStr Regex Utils Notions.

Lemma take_length (n : nat) (s : string) : String.length (take n s) <= n.
Proof.
  revert s. induction n as [|n IH]; intro s; simpl; [lia|].
  destruct s as [|c s]; simpl; [lia|]. specialize (IH s). lia.
Qed.

Lemma forallb_take (p : ascii -> bool) (n : nat) (s : string) :
  PyStr.forallb p s = true -> PyStr.forallb p (take n s) = true.
Proof.
  revert s. induction n as [|n IH]; intro s; simpl; [auto|].
  destruct s as [|c s]; simpl; [auto|].
  intro H. apply andb_true_iff in H. destruct H as [Hc Hs]. now rewrite Hc, IH.
Qed.

Lemma existsb_negb_forallb (p : ascii -> bool) (s : string) :
  negb (PyStr.existsb p s) = PyStr.forallb (fun c => negb (p c)) s.
Proof.
  induction s as [|c s IH]; simpl; [reflexivity|]. now rewrite negb_orb, IH.
Qed.

Lemma tag_free_take (n : nat) (s : string) :
  tag_free s = true -> tag_free (take n s) = true.
Proof.
  revert s. induction n as [|n IH]; intro s; simpl; [auto|].
  destruct s as [|c s]; simpl; [auto|].
  intro H. apply andb_true_iff in H. destruct H as [Hc Hs].
  rewrite (IH s Hs), andb_true_r.
  apply orb_true_iff in Hc. apply orb_true_iff. destruct Hc as [Hc|Hc]; [now left|right].
  rewrite existsb_negb_forallb in *. now apply forallb_take.
Qed.

Lemma forallb_remove_tags (p : ascii -> bool) (s : string) :
  PyStr.forallb p s = true ->
  forall inside, PyStr.forallb p (remove_tags_from inside s) = true.
Proof.
  induction s as [|c s IH]; simpl; [auto|].
  intro H. apply andb_true_iff in H. destruct H as [Hc Hs].
  intros [|]; [now apply IH|].
  destruct (_ && _); [now apply IH|]. simpl. now rewrite Hc, IH.
Qed.

Lemma remove_tags_from_tag_free (s : string) :
  forall inside, tag_free (remove_tags_from inside s) = true.
Proof.
  induction s as [|c s IH]; intros inside; simpl; [now destruct inside|].
  destruct inside; [apply IH|].
  destruct (Ascii.eqb c "<") eqn:Hc; simpl.
  - destruct (PyStr.existsb (Ascii.eqb ">"%char) s) eqn:Hgt; [apply IH|].
    simpl. rewrite Hc, IH, andb_true_r. simpl.
    rewrite existsb_negb_forallb. apply forallb_remove_tags.
    rewrite <- existsb_negb_forallb, Hgt. reflexivity.
  - now rewrite Hc, IH.
Qed.

(** X3: the text [sanitize_input] returns has at most 2000 characters and
    holds no tag, that is no [<] with a [>] anywhere after it. *)
Theorem sanitize_input_bounded_tag_free (text : string) :
  String.length (sanitize_input text) <= 2000 /\
  tag_free (sanitize_input text) = true.
Proof.
  unfold sanitize_input. destruct text as [|c text]; [simpl; split; [lia | reflexivity]|].
  split; [apply take_length|].
  apply tag_free_take, remove_tags_from_tag_free.
Qed.

Lemma split_from_words (s : string) :
  forall word,
    PyStr.forallb (fun c => negb (isspace c)) word = true ->
    Forall (fun w => PyStr.forallb (fun c => negb (isspace c)) w = true)
           (split_from word s).
Proof.
  induction s as [|c s IH]; intros word Hw; simpl.
  - destruct word; [constructor | constructor; [exact Hw | constructor]].
  - destruct (isspace c) eqn:Hc.
    + destruct word; [now apply IH | constructor; [exact Hw | now apply IH]].
    + apply IH. rewrite forallb_append, Hw. simpl. now rewrite Hc.
Qed.

Lemma split_from_blank (s : string) :
  PyStr.forallb isspace s = true -> split_from "" s = [].
Proof.
  induction s as [|c s IH]; simpl; [reflexivity|].
  intro H. apply andb_true_iff in H. destruct H as [Hc Hs]. now rewrite Hc, IH.
Qed.

Lemma forallb_join (p : ascii -> bool) (sep : string) (words : list string) :
  PyStr.forallb p sep = true ->
  Forall (fun w => PyStr.forallb p w = true) words ->
  PyStr.forallb p (join sep words) = true.
Proof.
  intros Hsep Hw. unfold join. induction Hw as [|w ws Hp Hws IH]; simpl; [reflexivity|].
  destruct ws as [|w' ws]; [exact Hp|].
  now rewrite !forallb_append, Hp, Hsep, IH.
Qed.

(** X4: in the text [sanitize_input] returns, the only whitespace
    character is the plain space (tabs, newlines and the like are gone);
    and a text made of whitespace only is sanitized to the empty text. *)
Theorem sanitize_input_whitespace :
  (forall text, plain_spaces (sanitize_input text) = true) /\
  (forall text, PyStr.forallb isspace text = true -> sanitize_input text = "").
Proof.
  split; intro text.
  - unfold sanitize_input, plain_spaces. destruct text as [|c text]; [reflexivity|].
    apply forallb_take, forallb_remove_tags, forallb_join; [reflexivity|].
    eapply Forall_impl; [|apply (split_from_words (String c text) "" eq_refl)].
    intros w Hw. revert Hw. apply forallb_weaken. intros x Hx. now rewrite Hx.
  - intro Hblank. unfold sanitize_input. destruct text as [|c text]; [reflexivity|].
    unfold split_whitespace. now rewrite (split_from_blank _ Hblank).
Qed.

End Sanitize.

(** ** More on exit intent and on the technologies *)

Section ExitIntentMore.
Import PyStr Config Utils Spec Notions.

Lemma Substring_inside (k s pre post : string) :
  Substring k s -> Substring k (pre ++ s ++ post).
Proof.
  intros (a & b & ->). exists (pre ++ a), (b ++ post). now rewrite !append_assoc.
Qed.

Lemma lstrip_suffix (s : string) : exists blanks, s = blanks ++ lstrip s.
Proof.
  induction s as [|c s [blanks IH]]; simpl; [exists ""; reflexivity|].
  destruct (isspace c); [|exists ""; reflexivity].
  exists (String c blanks). simpl. now rewrite <- IH.
Qed.

Lemma rstrip_prefix (s : string) : exists blanks, s = rstrip s ++ blanks.
Proof.
  induction s as [|c s [blanks IH]]; simpl; [exists ""; reflexivity|].
  destruct (rstrip s) as [|d r] eqn:Hr.
  - destruct (isspace c).
    + exists (String c s). reflexivity.
    + exists blanks. simpl in IH. simpl. now rewrite <- IH.
  - exists blanks. simpl. simpl in IH. now rewrite <- IH.
Qed.

Lemma Substring_of_strip (k s : string) : Substring k (strip s) -> Substring k s.
Proof.
  unfold strip. intro H.
  destruct (lstrip_suffix s) as [front Hf]. destruct (rstrip_prefix (lstrip s)) as [back Hb].
  rewrite Hf, Hb. apply (Substring_inside k _ front back) in H. exact H.
Qed.

Lemma lower_char_idempotent (c : ascii) : lower_char (lower_char c) = lower_char c.
Proof. destruct c as [[] [] [] [] [] [] [] []]; reflexivity. Qed.

Lemma lower_idempotent (s : string) : lower (lower s) = lower s.
Proof.
  unfold lower. induction s as [|c s IH]; simpl; [reflexivity|].
  now rewrite lower_char_idempotent, IH.
Qed.

(** A keyword of at least two characters survives [strip] when its ends
    are not whitespace. *)
Ltac keyword_survives :=
  match goal with
  | |- Substring (String ?a ?rest) (strip ?s) =>
      let z := eval vm_compute in (last_char rest) in
      let mid := eval vm_compute in (but_last rest) in
      change (Substring (String a (mid ++ String z "")) (strip s));
      apply Substring_strip; [reflexivity | reflexivity | ]
  end.

Lemma keyword_in_stripped (k s : string) :
  In k EXIT_KEYWORDS -> Substring k s -> Substring k (strip s).
Proof.
  intros Hin Hk. simpl in Hin.
  repeat (destruct Hin as [<-|Hin]; [keyword_survives; exact Hk|]).
  contradiction.
Qed.

(** X5: exit intent does not depend on the case of the letters, and it is
    kept by any text put around the message: a message that contains, as
    a part, a message with exit intent has exit intent too. *)
Theorem exit_intent_kept_by_context :
  (forall m, check_exit_intent (lower m) = check_exit_intent m) /\
  (forall m pre post,
     check_exit_intent m = true -> check_exit_intent (pre ++ m ++ post) = true).
Proof.
  split.
  - intro m. unfold check_exit_intent. now rewrite lower_idempotent.
  - intros m pre post Hm.
    apply check_exit_intent_scan in Hm. destruct Hm as (k & Hin & Hk).
    apply check_exit_intent_scan. exists k. split; [exact Hin|].
    apply keyword_in_stripped; [exact Hin|].
    apply Substring_of_strip in Hk.
    unfold lower. rewrite !map_append. now apply Substring_inside.
Qed.

(** The part of X5 on context, on a message that is an exit keyword. *)
Lemma exit_intent_kept_by_context_witness :
  check_exit_intent ("I will " ++ "stop" ++ "over in Rome") = true.
Proof.
  apply (proj2 exit_intent_kept_by_context "stop" "I will " "over in Rome").
  reflexivity.
Defined.

End ExitIntentMore.

Section TechStackMore.
Import PyStr Utils Spec Notions.
Context {R : Runtime}.

(** X6: [parse_tech_stack] never returns two entries that are equal up
    to the case of their letters, whatever the text and whatever the
    iteration order of the set. *)
Theorem parse_tech_stack_distinct_up_to_case (text : string) :
  NoDup (List.map lower (parse_tech_stack text)).
Proof.
  pose proof (identified_distinct text) as Hd.
  unfold parse_tech_stack. rewrite <- firstn_map. apply NoDup_firstn.
  apply (Permutation_NoDup (l := List.map lower (identified_technologies text))); [|exact Hd].
  apply Permutation_map, Permutation_sym.
  rewrite <- (nodup_fixed_point string_dec (NoDup_map_inv _ _ Hd)) at 2.
  apply set_to_list_perm.
Qed.

End TechStackMore.

(** ** More on the gateway *)

Section GatewayMore.
Import PyStr LLMClient Spec Notions.
Context {R : Runtime}.

(** The loop of [generate_response] when every call fails, for any number
    of attempts. *)
Lemma attempt_loop_all_fail (max_retries : nat) (prompt full_prompt : string)
    (history : list Message) :
  (forall k request, chat_completion k request = None) ->
  forall remaining attempt calls naps,
    attempt + remaining = max_retries ->
    attempt_loop remaining attempt max_retries prompt full_prompt
      (mk false history calls naps) =
    (_get_demo_response prompt,
     mk false history (calls + remaining)
        (naps ++ List.map (fun k => 2 ^ k) (seq attempt (remaining - 1)))).
Proof.
  intro Hdown. induction remaining as [|remaining IH]; intros attempt calls naps Hsum.
  - simpl. now rewrite Nat.add_0_r, app_nil_r.
  - cbn [attempt_loop with_history count_call sleep conversation_history api_calls slept
         demo_mode].
    rewrite Hdown, drop_failed_turn_user.
    destruct (Nat.ltb_spec attempt (max_retries - 1)) as [Hlt|Hge];
      unfold sleep, with_history, count_call;
      cbn [conversation_history api_calls slept demo_mode].
    + rewrite IH by lia. f_equal. f_equal; [lia|].
      destruct remaining as [|remaining]; [lia|].
      rewrite <- app_assoc. simpl. now rewrite Nat.sub_0_r, Nat.mul_1_r.
    + assert (remaining = 0) by lia. subst remaining.
      simpl. now rewrite app_nil_r, Nat.add_1_r.
Qed.

(** X7: when every call to the endpoint fails, [generate_response] with
    [max_retries] attempts makes exactly that many calls, waits 1s, 2s, 4s
    and so on, doubling, between them (so [max_retries - 1] waits, none
    after the last failure), leaves the buffer as it was and returns the
    canned text; with no attempt allowed it makes no call at all. *)
Theorem backoff_doubles_between_attempts (max_retries : nat) (prompt : string)
    (context : option string) (c : LLMClient.t) :
  demo_mode c = false ->
  (forall k request, chat_completion k request = None) ->
  generate_response_with prompt context max_retries c =
    (_get_demo_response prompt,
     mk false (conversation_history c) (api_calls c + max_retries)
        (slept c ++ List.map (fun k => 2 ^ k) (seq 0 (max_retries - 1)))).
Proof.
  intros Hdemo Hdown. destruct c as [demo history calls naps]. simpl in Hdemo. subst demo.
  unfold generate_response_with. cbn [demo_mode conversation_history api_calls slept].
  now apply attempt_loop_all_fail.
Qed.

(** What a call of [generate_response] does to the client. *)
Lemma generate_response_outcome (prompt : string) (c : LLMClient.t) :
  demo_mode (snd (generate_response prompt c)) = demo_mode c /\
  (demo_mode c = true -> snd (generate_response prompt c) = c) /\
  (conversation_history (snd (generate_response prompt c)) = conversation_history c \/
   exists answer,
     conversation_history (snd (generate_response prompt c)) =
       trim ((conversation_history c ++ [mkMessage user prompt]) ++
             [mkMessage assistant answer])).
Proof.
  destruct c as [[|] history calls naps].
  - unfold generate_response, generate_response_with. simpl. auto.
  - unfold generate_response, generate_response_with. cbn [demo_mode].
    rewrite attempt_loop_step.
    destruct (chat_completion calls _) as [a0|];
      [cbn; split; [reflexivity | split; [discriminate | right; eauto]]|].
    cbn [Nat.ltb Nat.leb]. rewrite attempt_loop_step.
    destruct (chat_completion (S calls) _) as [a1|];
      [cbn; split; [reflexivity | split; [discriminate | right; eauto]]|].
    cbn [Nat.ltb Nat.leb]. rewrite attempt_loop_step.
    destruct (chat_completion (S (S calls)) _) as [a2|];
      [cbn; split; [reflexivity | split; [discriminate | right; eauto]]|].
    cbn. split; [reflexivity | split; [discriminate | now left]].
Qed.

Lemma trim_bounded (history : list Message) (u a : Message) :
  List.length history <= 21 ->
  List.length (trim ((history ++ [u]) ++ [a])) <= 21 /\
  (forall first rest, history = first :: rest ->
     exists rest', trim ((history ++ [u]) ++ [a]) = first :: rest').
Proof.
  intro Hlen. destruct history as [|first rest].
  - split; [simpl; lia | discriminate].
  - destruct (trim_after_exchange first rest u a Hlen) as (rest' & E & Hl).
    rewrite E. split; [lia|]. intros f r Heq. injection Heq as <- <-. eauto.
Qed.

(** X8: whatever the endpoint does (answers, failures, in any pattern)
    and in both modes, a buffer of at most 21 entries never grows beyond
    21 entries over any run of [generate_response] calls, its first entry,
    if it has one, stays in place, and the mode of the client does not
    change. *)
Theorem buffer_stays_within_window (prompts : list string) (c : LLMClient.t) :
  List.length (conversation_history c) <= 21 ->
  List.length (conversation_history (exchanges prompts c)) <= 21 /\
  demo_mode (exchanges prompts c) = demo_mode c /\
  (forall first rest,
     conversation_history c = first :: rest ->
     List.hd_error (conversation_history (exchanges prompts c)) = Some first).
Proof.
  revert c. induction prompts as [|prompt prompts IH]; intros c Hlen.
  - simpl. split; [exact Hlen|]. split; [reflexivity|]. intros first rest ->. reflexivity.
  - unfold exchanges. simpl fold_left. fold (exchanges prompts (snd (generate_response prompt c))).
    destruct (generate_response_outcome prompt c) as (Hmode & _ & Hhist).
    assert (Hstep : List.length (conversation_history (snd (generate_response prompt c))) <= 21 /\
                    (forall first rest, conversation_history c = first :: rest ->
                       exists rest', conversation_history (snd (generate_response prompt c)) =
                                     first :: rest')).
    { destruct Hhist as [->|[answer ->]].
      - split; [exact Hlen | eauto].
      - now apply trim_bounded. }
    destruct Hstep as [Hlen' Hhd'].
    destruct (IH _ Hlen') as (Hl & Hm & Hh).
    split; [exact Hl|]. split; [now rewrite Hm|].
    intros first rest Hc. destruct (Hhd' first rest Hc) as [rest' Hr]. now apply (Hh first rest').
Qed.

(** X9: [__init__] makes at most one call and never sleeps; it selects
    demo mode exactly when the key is missing, empty or a placeholder, or
    the test call fails; the buffer then holds the preamble exactly when
    the key is usable and the test call answers a text that is not empty.
    When the test call answers the empty text the client is online with an
    empty buffer, and its first successful exchange leaves the user turn,
    not the preamble, at entry 0. *)
Theorem init_selects_mode (api_key : option string) :
  api_calls (init api_key) <= 1 /\
  slept (init api_key) = [] /\
  (demo_mode (init api_key) = true <->
   usable_key api_key = false \/ chat_completion 0 test_request = None) /\
  (conversation_history (init api_key) = [system_turn] <->
   usable_key api_key = true /\
   exists text, chat_completion 0 test_request = Some text /\ text <> "") /\
  (usable_key api_key = true ->
   chat_completion 0 test_request = Some "" ->
   init api_key = mk false [] 1 [] /\
   forall prompt answer,
     chat_completion 1 [mkMessage user prompt] = Some answer ->
     conversation_history (snd (generate_response prompt (init api_key))) =
       [mkMessage user prompt; mkMessage assistant answer]).
Proof.
  assert (Hsys : [system_turn] <> @nil Message) by discriminate.
  unfold init, usable_key, test_request.
  destruct api_key as [[|k key]|]; cbn [negb].
  - simpl. repeat split; auto; try discriminate; try tauto;
      intros [H _]; discriminate H.
  - destruct (startswith "YOUR_" (String k key)) eqn:Hph; cbn [negb].
    + simpl. repeat split; auto; try discriminate; try tauto;
        intros [H _]; discriminate H.
    + destruct (chat_completion 0 [mkMessage user "Say OK"]) as [[|t text]|] eqn:Htest.
      * unfold count_call, with_history; cbn -[generate_response].
        repeat split; auto; try discriminate.
        -- intros [H|H]; discriminate H.
        -- intros [_ (text & E & Hne)]. injection E as <-. congruence.
        -- intros prompt answer Hanswer.
           rewrite (successful_exchange (mk false [] 1 []) prompt answer eq_refl Hanswer).
           reflexivity.
      * unfold count_call, with_history; cbn -[generate_response].
        repeat split; auto; try discriminate.
        -- intros [H|H]; discriminate H.
        -- exists (String t text). split; [reflexivity | discriminate].
      * unfold count_call, with_history; cbn -[generate_response].
        repeat split; auto; try discriminate.
        -- intros [_ (text & E & _)]. discriminate E.
  - simpl. repeat split; auto; try discriminate; try tauto;
      intros [H _]; discriminate H.
Qed.

Lemma Substring_left (k s a : string) : Substring k s -> Substring k (a ++ s).
Proof. intros (pre & post & ->). exists (a ++ pre), post. now rewrite append_assoc. Qed.

Lemma Substring_right (k s b : string) : Substring k s -> Substring k (s ++ b).
Proof.
  intros (pre & post & ->). exists pre, (post ++ b). now rewrite !append_assoc.
Qed.

(** X10: the text of [_get_demo_response] is always one of the four canned
    texts; it is the greeting as soon as the prompt mentions greeting or
    welcome in any letter case, whatever else the prompt says, so in demo
    mode the technical questions asked for a position whose name contains
    welcome are the greeting text; and it is the generic acknowledgement
    exactly when the prompt mentions none of the six key words. *)
Theorem demo_response_by_keyword :
  (forall prompt,
     In (_get_demo_response prompt)
        [demo_greeting; demo_questions; demo_conclusion; demo_default]) /\
  (forall prompt,
     Substring "greeting" (lower prompt) \/ Substring "welcome" (lower prompt) ->
     _get_demo_response prompt = demo_greeting) /\
  (forall (c : LLMClient.t) (techs : list string) (experience : years) (position : string),
     demo_mode c = true ->
     Substring "welcome" (lower position) ->
     generate_technical_questions techs experience position c = (demo_greeting, c)) /\
  (forall prompt,
     List.existsb (fun word => contains word (lower prompt))
       ["greeting"; "welcome"; "technical"; "question"; "conclusion"; "closing"] = false ->
     _get_demo_response prompt = demo_default).
Proof.
  assert (G : forall prompt,
            Substring "greeting" (lower prompt) \/ Substring "welcome" (lower prompt) ->
            _get_demo_response prompt = demo_greeting).
  { intros prompt H. unfold _get_demo_response.
    destruct H as [H|H]; apply contains_Substring in H; rewrite H;
      [reflexivity | now rewrite orb_true_r]. }
  split; [|split; [exact G|split]].
  - intro prompt. unfold _get_demo_response.
    destruct (_ || _); [simpl; tauto|].
    destruct (_ || _); [simpl; tauto|].
    destruct (_ || _); simpl; tauto.
  - intros c techs experience position Hdemo Hw.
    unfold generate_technical_questions.
    destruct (if years_ltb experience 2 then _ else _) as [difficulty focus].
    unfold generate_response, generate_response_with. rewrite Hdemo.
    f_equal. apply G. right. unfold lower. rewrite !map_append.
    repeat first [ exact Hw | apply Substring_right; exact Hw | apply Substring_left ].
  - intros prompt H. unfold _get_demo_response. simpl in H.
    repeat (apply orb_false_iff in H; destruct H as [? H]).
    repeat match goal with E : contains _ _ = false |- _ => rewrite E; clear E end.
    reflexivity.
Qed.

End GatewayMore.

Section GatewayMoreExamples.
Import PyStr LLMClient Spec Notions Examples.

(** X7 with four attempts: the waits are 1s, 2s and 4s. *)
Lemma backoff_doubles_between_attempts_witness :
  slept (snd (generate_response_with (R := unreachable) "hello" None 4 connected)) =
    [1; 2; 4] /\
  api_calls (snd (generate_response_with (R := unreachable) "hello" None 4 connected)) = 4.
Proof.
  rewrite (backoff_doubles_between_attempts (R := unreachable) 4 "hello" None connected
             eq_refl (fun _ _ => eq_refl)).
  split; reflexivity.
Defined.

(** X8 on an endpoint that always answers, over thirty exchanges. *)
Lemma buffer_stays_within_window_witness :
  List.length (conversation_history
                 (exchanges (R := answering) (List.repeat "hi" 30) online_client)) <= 21.
Proof.
  apply (buffer_stays_within_window (R := answering) (List.repeat "hi" 30) online_client).
  vm_compute. lia.
Defined.

End GatewayMoreExamples.

(** ** More on the dialogue state machine *)

Section ClientKept.
Import PyStr LLMClient Notions.
Context {R : Runtime}.

Lemma client_kept_refl (c : LLMClient.t) : client_kept c c.
Proof. split; auto. Qed.

Lemma client_kept_trans (c1 c2 c3 : LLMClient.t) :
  client_kept c1 c2 -> client_kept c2 c3 -> client_kept c1 c3.
Proof.
  intros [M1 D1] [M2 D2]. split; [congruence|].
  intro Hd. rewrite (D2 ltac:(congruence)). auto.
Qed.

Lemma kept_generate_response (prompt : string) (c : LLMClient.t) :
  client_kept c (snd (generate_response prompt c)).
Proof. destruct (generate_response_outcome prompt c) as (M & D & _). split; auto. Qed.

Lemma kept_generate_conclusion (summary : string) (c : LLMClient.t) :
  client_kept c (snd (generate_conclusion summary c)).
Proof. apply kept_generate_response. Qed.

Lemma kept_generate_greeting (c : LLMClient.t) :
  client_kept c (snd (generate_greeting c)).
Proof. apply kept_generate_response. Qed.

Lemma kept_generate_with_history (m : string) (history : list Message) (c : LLMClient.t) :
  client_kept c (snd (generate_with_history m history c)).
Proof. apply kept_generate_response. Qed.

Lemma kept_generate_technical_questions (techs : list string) (y : years)
    (position : string) (c : LLMClient.t) :
  client_kept c (snd (generate_technical_questions techs y position c)).
Proof.
  unfold generate_technical_questions.
  destruct (if years_ltb y 2 then _ else _) as [difficulty focus].
  apply kept_generate_response.
Qed.

End ClientKept.

(** Name the answer and the next state of a call of the client, and keep
    what the call does to the client. *)
Ltac ask_llm_kept :=
  let K := fresh "K" in
  match goal with
  | |- context [LLMClient.generate_conclusion ?a ?b] =>
      pose proof (kept_generate_conclusion a b) as K;
      destruct (LLMClient.generate_conclusion a b) as [? ?]
  | |- context [LLMClient.generate_technical_questions ?a ?b ?c ?d] =>
      pose proof (kept_generate_technical_questions a b c d) as K;
      destruct (LLMClient.generate_technical_questions a b c d) as [? ?]
  | |- context [LLMClient.generate_with_history ?a ?b ?c] =>
      pose proof (kept_generate_with_history a b c) as K;
      destruct (LLMClient.generate_with_history a b c) as [? ?]
  | |- context [LLMClient.generate_greeting ?a] =>
      pose proof (kept_generate_greeting a) as K;
      destruct (LLMClient.generate_greeting a) as [? ?]
  | |- context [LLMClient.generate_response ?a ?b] =>
      pose proof (kept_generate_response a b) as K;
      destruct (LLMClient.generate_response a b) as [? ?]
  end;
  cbn [snd] in K.

(** What one store does to the answers. *)
Ltac one_store :=
  right; eexists; eexists; split; [reflexivity|];
  split; [simpl; tauto|];
  split; intro; solve [ assumption | discriminate ].

Ltac finish_effects :=
  let Hrun := fresh "Hrun" in
  intro Hrun; injection Hrun as <- <-;
  cbn [fst snd Handler.llm Handler.state Handler.phase Handler.candidate_info
       Handler.conversation_history Handler.current_field_index];
  repeat match goal with
         | |- _ /\ _ => split
         | |- _ <> _ -> _ /\ _ => intros _
         end;
  try solve
    [ reflexivity
    | discriminate
    | congruence
    | intro; discriminate
    | intros; congruence
    | rewrite <- app_assoc; reflexivity
    | apply client_kept_refl
    | assumption
    | eapply client_kept_trans; eassumption
    | left; reflexivity
    | one_store ].

Section Effects.
Import PyStr Config Utils Spec Notions Handler.
Context {R : Runtime}.

(** The effects of a call of [process_message] that returns. *)
Lemma step_effects (h : Handler.t) (raw : string) (r : string * bool) (h' : Handler.t) :
  process_message raw h = Some (r, h') ->
  (sanitize_input raw = "" -> h' = h /\ r = (empty_reprompt, false)) /\
  (sanitize_input raw <> "" ->
   snd r = check_exit_intent (sanitize_input raw) /\
   conversation_history (state h') =
     (conversation_history (state h) ++
      [mkMessage user (sanitize_input raw); mkMessage assistant (fst r)])%list /\
   (snd r = true -> phase (state h') = ENDED) /\
   (snd r = false -> phase (state h') = ENDED -> phase (state h) = ENDED) /\
   (phase (state h) = ENDED -> phase (state h') = ENDED)) /\
  client_kept (llm h) (llm h') /\
  (candidate_info (state h') = candidate_info (state h) \/
   exists k v,
     candidate_info (state h') = Dict.set k v (candidate_info (state h)) /\
     In k known_keys /\
     (k = "email" -> validate_email v = true) /\
     (k = "phone" -> validate_phone v = true)).
Proof.
  unfold process_message.
  destruct (sanitize_input raw) as [|c m] eqn:Hs.
  - intro Hrun. injection Hrun as <- <-.
    split; [auto|]. split; [intro Hne; now contradiction Hne|].
    split; [apply client_kept_refl | now left].
  - destruct h as [c0 s]. destruct s as [p info index hist parsed asked qs aw].
    run_handler.
    destruct (check_exit_intent (String c m)) eqn:Hexit.
    + run_handler. ask_llm_kept. finish_effects.
    + destruct p; run_handler.
      * destruct index as [|[|[|[|[|[|[|n]]]]]]]; run_handler.
        -- ask_llm_kept. finish_effects.
        -- ask_llm_kept. finish_effects.
        -- destruct (validate_email (String c m)) eqn:Hv; run_handler;
             try ask_llm_kept; finish_effects.
        -- destruct (validate_phone (String c m)) eqn:Hv; run_handler;
             try ask_llm_kept; finish_effects.
        -- destruct (validate_experience (String c m)); run_handler;
             ask_llm_kept; finish_effects.
        -- ask_llm_kept. finish_effects.
        -- finish_effects.
        -- destruct n; run_handler; intro Hrun; discriminate Hrun.
      * destruct index as [|[|[|[|[|[|[|n]]]]]]]; run_handler.
        -- ask_llm_kept. finish_effects.
        -- ask_llm_kept. finish_effects.
        -- destruct (validate_email (String c m)) eqn:Hv; run_handler;
             try ask_llm_kept; finish_effects.
        -- destruct (validate_phone (String c m)) eqn:Hv; run_handler;
             try ask_llm_kept; finish_effects.
        -- destruct (validate_experience (String c m)); run_handler;
             ask_llm_kept; finish_effects.
        -- ask_llm_kept. finish_effects.
        -- finish_effects.
        -- destruct n; run_handler; intro Hrun; discriminate Hrun.
      * destruct (parse_tech_stack (String c m)); run_handler.
        -- finish_effects.
        -- ask_llm_kept. finish_effects.
      * ask_llm_kept.
        destruct (List.existsb _ conclusion_indicators); run_handler.
        -- ask_llm_kept. finish_effects.
        -- finish_effects.
      * ask_llm_kept. finish_effects.
      * ask_llm_kept. finish_effects.
Qed.


Lemma dict_get_set_other (k k' v : string) (d : Dict.t) :
  Dict.get k' (Dict.set k v d) =
  if String.eqb k k' then Some v else Dict.get k' d.
Proof.
  induction d as [|[k0 v0] d IH]; simpl.
  - reflexivity.
  - destruct (String.eqb k0 k) eqn:E0; simpl.
    + apply String.eqb_eq in E0. subst k0. destruct (String.eqb k k'); reflexivity.
    + destruct (String.eqb k0 k') eqn:E1.
      * apply String.eqb_eq in E1. subst k0.
        rewrite String.eqb_sym in E0. now rewrite E0.
      * exact IH.
Qed.

Lemma fields_valid_set (k v : string) (info : Dict.t) :
  fields_valid info ->
  In k known_keys ->
  (k = "email" -> validate_email v = true) ->
  (k = "phone" -> validate_phone v = true) ->
  fields_valid (Dict.set k v info).
Proof.
  intros (Hk & He & Hp) Hin Hemail Hphone. repeat split.
  - intros k' v'. rewrite dict_get_set_other.
    destruct (String.eqb_spec k k'); [intros _; now subst | apply Hk].
  - intro v'. rewrite dict_get_set_other.
    destruct (String.eqb_spec k "email"); [|apply He].
    intro E. injection E as <-. auto.
  - intro v'. rewrite dict_get_set_other.
    destruct (String.eqb_spec k "phone"); [|apply Hp].
    intro E. injection E as <-. auto.
Qed.

Lemma greeting_keeps_answers (h : Handler.t) (greeting : string) (h' : Handler.t) :
  get_initial_greeting h = Some (greeting, h') ->
  candidate_info (state h') = candidate_info (state h) /\
  current_field_index (state h') = current_field_index (state h) /\
  phase (state h') = INFO_GATHERING.
Proof.
  destruct h as [c0 [p info index hist parsed asked qs aw]].
  run_handler. ask_llm. intro E. injection E as _ <-. auto.
Qed.

(** X11: over a whole session the mode of the client never changes, and
    in demo mode the client is left exactly as it was: no call to the
    endpoint, no wait, no change to its buffer. *)
Theorem session_keeps_client_mode (messages : list string) (h : Handler.t)
    (phases : list ConversationPhase) (h' : Handler.t) :
  run_session messages h = Some (phases, h') ->
  LLMClient.demo_mode (llm h') = LLMClient.demo_mode (llm h) /\
  (LLMClient.demo_mode (llm h) = true -> llm h' = llm h).
Proof.
  revert h phases. induction messages as [|m messages IH]; intros h phases; simpl.
  - intro E. injection E as _ <-. auto.
  - destruct (process_message m h) as [[r h1]|] eqn:E1; [|discriminate].
    destruct (run_session messages h1) as [[phases1 h2]|] eqn:E2; [|discriminate].
    intro E. injection E as _ <-.
    destruct (step_effects h m r h1 E1) as (_ & _ & K1 & _).
    exact (client_kept_trans _ _ _ K1 (IH h1 phases1 E2)).
Qed.

(** X12: a call of [process_message] that returns either leaves the
    handler untouched and answers with the fixed re-prompt, when nothing
    is left of the message after sanitation, or appends exactly two turns
    to the history: the sanitized message as a user turn and the reply it
    returns as an assistant turn. *)
Theorem history_grows_by_one_exchange (h : Handler.t) (raw reply : string)
    (ended : bool) (h' : Handler.t) :
  process_message raw h = Some ((reply, ended), h') ->
  (sanitize_input raw = "" /\ h' = h /\ reply = empty_reprompt /\ ended = false) \/
  (sanitize_input raw <> "" /\
   conversation_history (state h') =
     (conversation_history (state h) ++
      [mkMessage user (sanitize_input raw); mkMessage assistant reply])%list).
Proof.
  intro Hrun. destruct (step_effects h raw _ h' Hrun) as (Hempty & Hfull & _).
  destruct (sanitize_input raw) as [|c m] eqn:Hs.
  - left. destruct (Hempty eq_refl) as [-> E]. injection E as -> ->. auto.
  - right. split; [discriminate|]. apply Hfull. discriminate.
Qed.

(** X13: the flag returned by [process_message] is true exactly when the
    sanitized message has exit intent; the phase is ended after the call
    exactly when the flag is true or the phase was ended before; so a
    message without exit intent sent after the end is still answered,
    with the flag false. *)
Theorem ended_flag_is_exit_intent (h : Handler.t) (raw reply : string)
    (ended : bool) (h' : Handler.t) :
  process_message raw h = Some ((reply, ended), h') ->
  ended = check_exit_intent (sanitize_input raw) /\
  (phase (state h') = ENDED <-> ended = true \/ phase (state h) = ENDED).
Proof.
  intro Hrun. destruct (step_effects h raw _ h' Hrun) as (Hempty & Hfull & _).
  destruct (sanitize_input raw) as [|c m] eqn:Hs.
  - destruct (Hempty eq_refl) as [-> E]. injection E as _ ->.
    split; [reflexivity|]. split; [auto | intros [E|E]; [discriminate | exact E]].
  - destruct Hfull as (Hflag & _ & Hon & Hoff & Hstay); [discriminate|].
    cbn [snd] in *. split; [exact Hflag|]. split.
    + intro Hp. destruct ended; [now left | right; auto].
    + intros [E|E]; auto.
Qed.

Lemma reachable_fields_valid (h : Handler.t) :
  reachable h -> fields_valid (candidate_info (state h)).
Proof.
  induction 1 as [c|h Hr IH|h greeting h' Hr IH Hg|h raw r h' Hr IH Hrun].
  - repeat split; intros; discriminate.
  - repeat split; intros; discriminate.
  - destruct (greeting_keeps_answers h greeting h' Hg) as (-> & _). exact IH.
  - destruct (step_effects h raw r h' Hrun) as (_ & _ & _ & [->|(k & v & -> & Hin & He & Hp)]).
    + exact IH.
    + now apply fields_valid_set.
Qed.

Lemma has_key_set (k k' v : string) (d : Dict.t) :
  has_key (Dict.set k v d) k' = String.eqb k k' || has_key d k'.
Proof.
  unfold has_key. rewrite dict_get_set_other. now destruct (String.eqb k k').
Qed.

Lemma has_fields_set (n : nat) (k v : string) (info : Dict.t) :
  has_fields n info = true -> has_fields n (Dict.set k v info) = true.
Proof.
  unfold has_fields. rewrite !forallb_forall. intros H x Hin.
  rewrite has_key_set, (H x Hin). apply orb_true_r.
Qed.

(** X14: in every session, whatever is stored under email passes
    [validate_email], whatever is stored under phone passes
    [validate_phone], and nothing is stored under a key other than the six
    fields and tech_stack. *)
Theorem stored_contacts_are_valid (h : Handler.t) :
  reachable h -> fields_valid (candidate_info (state h)).
Proof. apply reachable_fields_valid. Qed.

End Effects.

(** Split what is known of the stored fields and compute the fields
    stored after one more answer. *)
Ltac fields_done :=
  unfold Notions.has_fields in *;
  cbn [firstn Handler.fields_to_collect List.forallb Nat.sub] in *;
  repeat match goal with
         | H : (Notions.has_key _ _ && _) = true |- _ =>
             let F := fresh "F" in
             apply andb_true_iff in H; destruct H as [F H]
         end;
  rewrite ?has_key_set; cbn [String.eqb Ascii.eqb Bool.eqb orb andb];
  repeat match goal with
         | F : Notions.has_key _ _ = true |- _ => rewrite F; clear F
         end;
  reflexivity.

Ltac finish_collected :=
  let Hrun := fresh "Hrun" in
  intro Hrun; injection Hrun as _ <-;
  unfold Notions.collected;
  cbn [Handler.state Handler.phase Handler.candidate_info Handler.current_field_index];
  repeat match goal with |- _ /\ _ => split end;
  try solve [ lia | exact I | assumption | apply has_fields_set; assumption | fields_done ].

Section Collected.
Import PyStr Config Utils Spec Notions Handler.
Context {R : Runtime}.

Lemma collected_step (h : Handler.t) (raw : string) (r : string * bool) (h' : Handler.t) :
  collected h -> process_message raw h = Some (r, h') -> collected h'.
Proof.
  unfold process_message.
  destruct (sanitize_input raw) as [|c m] eqn:Hs.
  - intros Hc Hrun. injection Hrun as _ <-. exact Hc.
  - destruct h as [c0 s]. destruct s as [p info index hist parsed asked qs aw].
    unfold collected at 1.
    cbn [Handler.state Handler.phase Handler.candidate_info Handler.current_field_index].
    intros (Hle & Hne & Hf & Hp).
    run_handler.
    destruct (check_exit_intent (String c m)) eqn:Hexit.
    + run_handler. ask_llm. finish_collected.
    + destruct p; run_handler.
      * destruct index as [|[|[|[|[|[|[|n]]]]]]]; [ | lia | | | | | | lia ]; run_handler.
        -- ask_llm. finish_collected.
        -- destruct (validate_email (String c m)) eqn:Hv; run_handler;
             try ask_llm; finish_collected.
        -- destruct (validate_phone (String c m)) eqn:Hv; run_handler;
             try ask_llm; finish_collected.
        -- destruct (validate_experience (String c m)); run_handler;
             ask_llm; finish_collected.
        -- ask_llm. finish_collected.
        -- finish_collected.
      * destruct index as [|[|[|[|[|[|[|n]]]]]]]; [ | lia | | | | | | lia ]; run_handler.
        -- ask_llm. finish_collected.
        -- destruct (validate_email (String c m)) eqn:Hv; run_handler;
             try ask_llm; finish_collected.
        -- destruct (validate_phone (String c m)) eqn:Hv; run_handler;
             try ask_llm; finish_collected.
        -- destruct (validate_experience (String c m)); run_handler;
             ask_llm; finish_collected.
        -- ask_llm. finish_collected.
        -- finish_collected.
      * destruct (parse_tech_stack (String c m)); run_handler.
        -- finish_collected.
        -- ask_llm. finish_collected.
      * ask_llm.
        destruct (List.existsb _ conclusion_indicators); run_handler.
        -- ask_llm. finish_collected.
        -- finish_collected.
      * ask_llm. finish_collected.
      * ask_llm. finish_collected.
Qed.

Lemma reachable_collected (h : Handler.t) : reachable h -> collected h.
Proof.
  induction 1 as [c|h Hr IH|h greeting h' Hr IH Hg|h raw r h' Hr IH Hrun].
  - unfold collected. simpl. repeat split; auto; lia.
  - unfold collected. simpl. repeat split; auto; lia.
  - destruct (greeting_keeps_answers h greeting h' Hg) as (Hi & Hx & Hp).
    destruct IH as (Hle & Hne & Hf & _).
    unfold collected. rewrite Hi, Hx, Hp. auto.
  - exact (collected_step h raw r h' IH Hrun).
Qed.

Lemma reachable_run_session (messages : list string) :
  forall (h : Handler.t) (phases : list ConversationPhase) (h' : Handler.t),
    reachable h -> run_session messages h = Some (phases, h') -> reachable h'.
Proof.
  induction messages as [|m messages IH]; intros h phases h' Hr; simpl.
  - intro E. injection E as _ <-. exact Hr.
  - destruct (process_message m h) as [[r h1]|] eqn:E1; [|discriminate].
    destruct (run_session messages h1) as [[phases1 h2]|] eqn:E2; [|discriminate].
    intro E. injection E as _ <-.
    exact (IH h1 phases1 h2 (reach_message _ _ _ _ Hr E1) E2).
Qed.

Lemma has_fields_all (info : Dict.t) :
  has_fields 6 info = true ->
  forall k, In k fields_to_collect -> exists v, Dict.get k info = Some v.
Proof.
  unfold has_fields. rewrite forallb_forall. intros H k Hin.
  specialize (H k Hin). unfold has_key in H.
  destruct (Dict.get k info) as [v|]; [eauto | discriminate].
Qed.

(** X15: in every session, while the phase is tech_stack,
    technical_questions or conclusion, each of the six fields has a
    stored value, the email and the phone number being valid ones; and in
    any phase the fields asked before the one the cursor has reached are
    stored. *)
Theorem six_fields_before_tech_stack (h : Handler.t) :
  reachable h ->
  has_fields (current_field_index (state h) - 1) (candidate_info (state h)) = true /\
  (2 <= phase_rank (phase (state h)) <= 4 ->
   (forall k, In k fields_to_collect ->
      exists v, Dict.get k (candidate_info (state h)) = Some v) /\
   (exists email phone,
      Dict.get "email" (candidate_info (state h)) = Some email /\
      validate_email email = true /\
      Dict.get "phone" (candidate_info (state h)) = Some phone /\
      validate_phone phone = true)).
Proof.
  intro Hr. destruct (reachable_collected h Hr) as (_ & _ & Hf & Hp).
  destruct (reachable_fields_valid h Hr) as (_ & He & Hph).
  split; [exact Hf|]. intro Hrank.
  assert (Hsix : has_fields 6 (candidate_info (state h)) = true).
  { destruct (phase (state h)); simpl in Hrank; first [exact Hp | lia]. }
  pose proof (has_fields_all _ Hsix) as Hall.
  split; [exact Hall|].
  destruct (Hall "email") as [email Hemail]; [simpl; tauto|].
  destruct (Hall "phone") as [phone Hphone]; [simpl; tauto|].
  exists email, phone. auto.
Qed.

End Collected.

Section EffectsExamples.
Import PyStr Config Utils Spec Notions Handler Examples.

(** X11 on a session in demo mode, from its creation to after its end. *)
Lemma session_keeps_client_mode_witness :
  match run_session (R := unreachable)
          [ "Ann Lee"; "ann@x.org"; "+1 234 567 8901"; "3.5 years"; "Python developer";
            "Paris"; "Python, Django, PostgreSQL"; "i am done"; "bye" ]
          (Handler.new demo_client) with
  | Some (_, h') => llm h' = demo_client
  | None => False
  end.
Proof.
  destruct (run_session _ _) as [[phases h']|] eqn:E.
  - exact (proj2 (session_keeps_client_mode (R := unreachable) _ _ _ _ E) eq_refl).
  - vm_compute in E. discriminate E.
Defined.

(** X12 on a first answer. *)
Lemma history_grows_by_one_exchange_witness :
  match process_message (R := unreachable) "  Ann   Lee " (handler_at INFO_GATHERING [] 0) with
  | Some ((reply, _), h') =>
      conversation_history (state h') =
        [mkMessage user "Ann Lee"; mkMessage assistant reply]
  | None => False
  end.
Proof.
  destruct (process_message _ _) as [[[reply ended] h']|] eqn:E.
  - destruct (history_grows_by_one_exchange (R := unreachable) _ _ _ _ _ E)
      as [(Hempty & _)|(_ & Hh)].
    + vm_compute in Hempty. discriminate Hempty.
    + exact Hh.
  - vm_compute in E. discriminate E.
Defined.

(** X13 on a message sent after the end of the session. *)
Lemma ended_flag_is_exit_intent_witness :
  match process_message (R := unreachable) "one more thing" (handler_at ENDED six_fields 6) with
  | Some ((_, ended), h') => ended = false /\ phase (state h') = ENDED
  | None => False
  end.
Proof.
  destruct (process_message _ _) as [[[reply ended] h']|] eqn:E.
  - destruct (ended_flag_is_exit_intent (R := unreachable) _ _ _ _ _ E) as [Hflag Hphase].
    split; [exact Hflag | apply Hphase; now right].
  - vm_compute in E. discriminate E.
Defined.

(** X14 on the handler that has heard a name, an email address and a
    phone number: both are stored, and valid. *)
Lemma stored_contacts_are_valid_witness :
  match run_session (R := unreachable)
          [ "Ann Lee"; "ann@x.org"; "+1 234 567 8901" ] (Handler.new demo_client) with
  | Some (_, h') =>
      Dict.get "email" (candidate_info (state h')) = Some "ann@x.org" /\
      validate_email "ann@x.org" = true /\
      Dict.get "phone" (candidate_info (state h')) = Some "+1 234 567 8901" /\
      validate_phone "+1 234 567 8901" = true
  | None => False
  end.
Proof.
  destruct (run_session _ _) as [[phases h']|] eqn:E.
  - pose proof (stored_contacts_are_valid (R := unreachable) h'
                  (reachable_run_session _ _ _ _ (reach_new demo_client) E))
      as (_ & Hemail & Hphone).
    assert (He : Dict.get "email" (candidate_info (state h')) = Some "ann@x.org")
      by (vm_compute in E; injection E as _ <-; reflexivity).
    assert (Hp : Dict.get "phone" (candidate_info (state h')) = Some "+1 234 567 8901")
      by (vm_compute in E; injection E as _ <-; reflexivity).
    split; [exact He|]. split; [exact (Hemail _ He)|].
    split; [exact Hp | exact (Hphone _ Hp)].
  - vm_compute in E. discriminate E.
Defined.

(** X15 on the handler that has heard the six answers and asks for the
    tech stack. *)
Lemma six_fields_before_tech_stack_witness :
  match run_session (R := unreachable)
          [ "Ann Lee"; "ann@x.org"; "+1 234 567 8901"; "3.5 years"; "Python developer";
            "Paris" ] (Handler.new demo_client) with
  | Some (_, h') =>
      phase (state h') = TECH_STACK /\
      (forall k, In k fields_to_collect ->
         exists v, Dict.get k (candidate_info (state h')) = Some v) /\
      (exists email phone,
         Dict.get "email" (candidate_info (state h')) = Some email /\
         validate_email email = true /\
         Dict.get "phone" (candidate_info (state h')) = Some phone /\
         validate_phone phone = true)
  | None => False
  end.
Proof.
  destruct (run_session _ _) as [[phases h']|] eqn:E.
  - assert (Hphase : phase (state h') = TECH_STACK)
      by (vm_compute in E; injection E as _ <-; reflexivity).
    split; [exact Hphase|].
    apply (six_fields_before_tech_stack (R := unreachable) h'
             (reachable_run_session _ _ _ _ (reach_new demo_client) E)).
    rewrite Hphase. simpl. lia.
  - vm_compute in E. discriminate E.
Defined.

End EffectsExamples.

(** ** Saved records *)

Section SavedRecords.
Import PyStr Utils Notions.

Lemma append_cancel_l (a x y : string) : a ++ x = a ++ y -> x = y.
Proof. induction a as [|c a IH]; simpl; [auto|]. intro E. injection E as E. auto. Qed.

Lemma append_cancel_r (b : string) : forall x y, x ++ b = y ++ b -> x = y.
Proof.
  induction x as [|c x IH]; intros y E.
  - destruct y as [|d y]; [reflexivity|].
    apply (f_equal String.length) in E. simpl in E. rewrite length_append in E. lia.
  - destruct y as [|d y].
    + apply (f_equal String.length) in E. simpl in E. rewrite length_append in E. lia.
    + simpl in E. injection E as -> E. f_equal. auto.
Qed.

Lemma saved_path_stamp (dir s1 s2 : string) :
  dir ++ "/" ++ ("candidate_" ++ s1) ++ ".json" =
  dir ++ "/" ++ ("candidate_" ++ s2) ++ ".json" <-> s1 = s2.
Proof.
  split; [|now intros ->].
  intro E. apply append_cancel_l in E. apply (append_cancel_l "/") in E.
  apply append_cancel_r in E. now apply append_cancel_l in E.
Qed.

(** X16: the file that [save_candidate_data] writes into its default
    directory is named after the second of the clock alone.  After two
    saves the second record is read back from its path; the first is still
    read from its own path if the two clock readings differ, and is
    replaced by the second if they are the same; every other file is as
    before. *)
Theorem save_twice (now1 now2 : Clock) (info1 info2 : Dict.t)
    (history1 history2 : list Message) (fs : Files) :
  let first := save_candidate_data now1 info1 history1 "candidate_data" fs in
  let second := save_candidate_data now2 info2 history2 "candidate_data" (snd first) in
  (fst first = fst second <-> stamp now1 = stamp now2) /\
  (exists saved,
     read_file (fst second) (snd second) = Some saved /\
     candidate_info saved = info2 /\ conversation_history saved = history2) /\
  (stamp now1 <> stamp now2 ->
   exists saved,
     read_file (fst first) (snd second) = Some saved /\
     candidate_info saved = info1 /\ conversation_history saved = history1) /\
  (stamp now1 = stamp now2 ->
   read_file (fst first) (snd second) = read_file (fst second) (snd second)) /\
  (forall path, path <> fst first -> path <> fst second ->
     read_file path (snd second) = read_file path fs).
Proof.
  unfold save_candidate_data. cbn [fst snd read_file].
  pose proof (saved_path_stamp "candidate_data" (stamp now1) (stamp now2)) as Hpath.
  split; [exact Hpath|]. split; [|split; [|split]].
  - rewrite String.eqb_refl. eexists. repeat split.
  - intro Hne. destruct (String.eqb_spec
      ("candidate_data" ++ "/" ++ ("candidate_" ++ stamp now2) ++ ".json")
      ("candidate_data" ++ "/" ++ ("candidate_" ++ stamp now1) ++ ".json")) as [E|_].
    + symmetry in E. apply Hpath in E. contradiction.
    + rewrite String.eqb_refl. eexists. repeat split.
  - intros ->. reflexivity.
  - intros path H1 H2.
    destruct (String.eqb_spec
      ("candidate_data" ++ "/" ++ ("candidate_" ++ stamp now2) ++ ".json") path);
      [congruence|].
    destruct (String.eqb_spec
      ("candidate_data" ++ "/" ++ ("candidate_" ++ stamp now1) ++ ".json") path);
      [congruence | reflexivity].
Qed.

End SavedRecords.
